(** * Domain-scoped session cookies of the SOAP client

    A shallow embedding of [src/soap-client.js] (class [SOAPClient]): the
    cookie store keyed by domain, the extraction of [Set-Cookie] values from
    a call result, and the coordinator methods [connect], [executeMethod],
    [applyCookiesForDomain], [addCookiesForDomain] and friends.

    Conventions.
    - A JavaScript string is a [string]; every [ascii] stands for one code
      unit in the range 0..255.
    - The instance fields of [SOAPClient] are a record that every method
      takes and returns; [console.log] / [console.error] append an [Event]
      to the [console] field.
    - What the platform or the network answers ([new url.URL], the [soap]
      library, the remote service) is an argument of the method that asks.
    - A method that can [throw] returns a [Completion]. *)

From Stdlib Require Import String Ascii List Bool Arith Lia.
From stdpp Require Import base option gmap strings list.
Import ListNotations.

Local Open Scope string_scope.

(** ** JavaScript string primitives used by the source *)

Module JsString.

(** [s.startsWith(p)] *)
Fixpoint startsWith (p s : string) : bool :=
  match p, s with
  | EmptyString, _ => true
  | String _ _, EmptyString => false
  | String a p', String b s' => if Ascii.eqb a b then startsWith p' s' else false
  end.

(** [s.split(c)] for a one-character separator [c]: never the empty array. *)
Fixpoint split (c : ascii) (s : string) : list string :=
  match s with
  | EmptyString => [EmptyString]
  | String a s' =>
      if Ascii.eqb a c then EmptyString :: split c s'
      else match split c s' with
           | h :: t => String a h :: t
           | [] => [String a EmptyString]
           end
  end.

(** [s.split(c)[0]]: the text before the first [c], all of [s] without one. *)
Definition firstField (c : ascii) (s : string) : string :=
  hd EmptyString (split c s).

(** The same text, computed directly. *)
Fixpoint before (c : ascii) (s : string) : string :=
  match s with
  | EmptyString => EmptyString
  | String a s' => if Ascii.eqb a c then EmptyString else String a (before c s')
  end.

(** Does [c] occur in [s]? *)
Fixpoint contains (c : ascii) (s : string) : bool :=
  match s with
  | EmptyString => false
  | String a s' => if Ascii.eqb a c then true else contains c s'
  end.

(** [l.join(sep)] on an array of strings. *)
Fixpoint join (sep : string) (l : list string) : string :=
  match l with
  | [] => EmptyString
  | [x] => x
  | x :: (_ :: _) as t => x +:+ sep +:+ join sep t
  end.

(** White space of [String.prototype.trim] and of the regular expression
    class [\s], among the code units below 256. *)
Definition isSpace (a : ascii) : bool :=
  let n := nat_of_ascii a in
  (Nat.leb 9 n && Nat.leb n 13) || Nat.eqb n 32 || Nat.eqb n 160.

Fixpoint trimStart (s : string) : string :=
  match s with
  | EmptyString => EmptyString
  | String a s' => if isSpace a then trimStart s' else s
  end.

Fixpoint trimEnd (s : string) : string :=
  match s with
  | EmptyString => EmptyString
  | String a s' =>
      match trimEnd s' with
      | EmptyString => if isSpace a then EmptyString else String a EmptyString
      | t => String a t
      end
  end.

(** [s.trim()] *)
Definition trim (s : string) : string := trimEnd (trimStart s).

(** Truthiness of a string: only the empty string is falsy. *)
Definition truthy (s : string) : bool :=
  match s with EmptyString => false | String _ _ => true end.

End JsString.
Import JsString.

(** ** The [Set-Cookie] scan of a textual response

    [raw.match(/Set-Cookie:\s*([^\r\n]+)/gi)] followed, for every match, by
    [match.replace(/Set-Cookie:\s*/i, '')]. *)

Module SetCookieScan.

(** Canonical form of a code unit under the [i] flag, as far as the
    pattern can tell: ASCII letters fold to upper case, and no code unit
    from 128 on folds onto an ASCII one. *)
Definition canonicalize (a : ascii) : ascii :=
  let n := nat_of_ascii a in
  if Nat.leb 97 n && Nat.leb n 122 then ascii_of_nat (n - 32) else a.

(** Matches the literal [pat] at the start of [s], ignoring case; the rest
    of [s] on success. *)
Fixpoint literal_ci (pat s : string) : option string :=
  match pat, s with
  | EmptyString, _ => Some s
  | String _ _, EmptyString => None
  | String p pat', String a s' =>
      if Ascii.eqb (canonicalize p) (canonicalize a) then literal_ci pat' s' else None
  end.

Definition notLineBreak (a : ascii) : bool :=
  negb (Nat.eqb (nat_of_ascii a) 10 || Nat.eqb (nat_of_ascii a) 13).

(** The longest prefix of [s] without a line break: greedy [[^\r\n]*]. *)
Fixpoint lineRun (s : string) : string :=
  match s with
  | EmptyString => EmptyString
  | String a s' => if notLineBreak a then String a (lineRun s') else EmptyString
  end.

(** [[^\r\n]+] at the start of [s]. *)
Definition valuePlus (s : string) : option string :=
  match lineRun s with
  | EmptyString => None
  | String a r => Some (String a r)
  end.

(** [\s*([^\r\n]+)] at the start of [s], greedy with backtracking: the
    star takes a white-space unit when the rest still matches, and gives
    it back otherwise. *)
Fixpoint spacesThenValue (s : string) : option string :=
  match s with
  | EmptyString => None
  | String a s' =>
      if isSpace a then
        match spacesThenValue s' with
        | Some m => Some (String a m)
        | None => valuePlus s
        end
      else valuePlus s
  end.

Definition header : string := "Set-Cookie:".

(** The text matched by the whole pattern at the start of [s]. *)
Definition matchAt (s : string) : option string :=
  match literal_ci header s with
  | None => None
  | Some rest =>
      match spacesThenValue rest with
      | None => None
      | Some m => Some (substring 0 (String.length header) s +:+ m)
      end
  end.

(** All matches, left to right, without overlap ([g] flag): after a match
    of [n] units the next [n - 1] units are skipped. *)
Fixpoint matchAllFrom (skip : nat) (s : string) : list string :=
  match s with
  | EmptyString => []
  | String _ s' =>
      match skip with
      | S k => matchAllFrom k s'
      | O =>
          match matchAt s with
          | Some m => m :: matchAllFrom (String.length m - 1) s'
          | None => matchAllFrom 0 s'
          end
      end
  end.

(** [raw.match(/.../gi)]: [null] without a match, else the array of matches. *)
Definition matchAll (raw : string) : option (list string) :=
  match matchAllFrom 0 raw with
  | [] => None
  | m :: ms => Some (m :: ms)
  end.

(** [m.replace(/Set-Cookie:\s*/i, '')]: the leftmost occurrence of the
    header and the white space after it is removed. *)
Fixpoint stripHeader (m : string) : string :=
  match literal_ci header m with
  | Some rest => trimStart rest
  | None =>
      match m with
      | EmptyString => EmptyString
      | String a m' => String a (stripHeader m')
      end
  end.

(** The cookie values found in a textual response, [None] when the
    pattern does not match at all. *)
Definition scan (raw : string) : option (list string) :=
  match matchAll raw with
  | None => None
  | Some ms => Some (map stripHeader ms)
  end.

End SetCookieScan.

Definition CR : string := String (ascii_of_nat 13) EmptyString.
Definition LF : string := String (ascii_of_nat 10) EmptyString.

(** ** Values exchanged with the platform and the RPC layer *)

(** An [Error] object, as far as the source looks at it. *)
Record JsError := { message : string }.

(** How a call that may [throw] ends. *)
Inductive Completion (A : Type) : Type :=
| Return (a : A)
| Throw (e : JsError).
Arguments Return {A} a.
Arguments Throw {A} e.

(** The value of a response header: one string, or an array of strings as
    Node reports [set-cookie]. *)
Inductive HeaderValue :=
| HStr (s : string)
| HArr (l : list string).

(** A header value in a condition: an array is truthy even when empty. *)
Definition hvTruthy (v : HeaderValue) : bool :=
  match v with
  | HStr s => truthy s
  | HArr _ => true
  end.

(** [Array.isArray(cookies) ? cookies : [cookies]] *)
Definition toArray (v : HeaderValue) : list string :=
  match v with
  | HStr s => [s]
  | HArr l => l
  end.

(** [h && h['set-cookie']], when truthy. *)
Definition setCookieOf (h : option (gmap string HeaderValue)) : option HeaderValue :=
  match h with
  | None => None
  | Some m =>
      match m !! "set-cookie" with
      | Some v => if hvTruthy v then Some v else None
      | None => None
      end
  end.

(** Modelled from the spec: the client object of the [soap] library, which
    is not part of the repository, as far as [SOAPClient] reads and writes
    it. Section 6 gives it an outgoing-header map with [setHeader] /
    [clearHeader] ([addHttpHeader] and [delete] in the source) and
    [lastResponseHeaders], filled in by the most recent invocation. *)
Record Client := {
  httpHeaders : gmap string string;
  lastResponseHeaders : option (gmap string HeaderValue)
}.

(** [client.addHttpHeader(name, value)] *)
Definition addHttpHeader (name value : string) (c : Client) : Client :=
  {| httpHeaders := <[name := value]> (httpHeaders c);
     lastResponseHeaders := lastResponseHeaders c |}.

(** [delete client.httpHeaders[name]] *)
Definition deleteHttpHeader (name : string) (c : Client) : Client :=
  {| httpHeaders := delete name (httpHeaders c);
     lastResponseHeaders := lastResponseHeaders c |}.

(** The [raw] field of a call result: missing, the response text, or a
    response object that may carry a [headers] map. *)
Inductive Raw :=
| RawUndefined
| RawText (body : string)
| RawResponse (headers : option (gmap string HeaderValue)).

(** [{ result, raw, soapHeader }] as resolved by [executeMethod]; the SOAP
    header plays no part in the code and is left out. *)
Record CallResult (A : Type) := { result : A; raw : Raw }.
Arguments result {A} _.
Arguments raw {A} _.

(** What the callback of [client[methodName]] receives, together with the
    response headers the library recorded on the client meanwhile. *)
Inductive RpcReply (A : Type) : Type :=
| RpcFailed (err : JsError) (recorded : option (gmap string HeaderValue))
| RpcDone (res : CallResult A) (recorded : option (gmap string HeaderValue)).
Arguments RpcFailed {A} err recorded.
Arguments RpcDone {A} res recorded.

(** What [connect] learns from the platform: the host name [new url.URL]
    gives for a URL (or its [TypeError]), and the outcome of
    [soap.createClientAsync] for the [wsdl_headers] it is handed: a
    rejection, or a client with the [location] of its first port (reading
    it throws when the WSDL has no service; it may be [undefined]). *)
Inductive CreateReply :=
| CreateRejected (err : JsError)
| CreateResolved (c : Client) (location : Completion (option string)).

Record Platform := {
  hostname : option string -> Completion string;
  createClientAsync : string -> gmap string string -> CreateReply
}.

(** ** Console output

    One event per message of [console.log] / [console.error]; the two
    lines written after a connection ([LogConnected]) and after an
    application of cookies ([LogApplied]) are one event each. *)

Inductive Event :=
| LogPreload (domain cookieString : string)
| LogConnected (serviceUrl domain : string)
| LogSwitching (oldDomain newDomain : string)
| ErrConnect (msg : string)
| LogSecurityConfigured (authMethod : string)
| LogCookieAuthenticated
| ErrCookieAuth (msg : string)
| ErrAuthenticate (msg : string)
| ErrExecute (methodName msg : string)
| LogFoundInClientHeaders
| LogFoundInRawHeaders
| LogFoundInRawText
| LogNoCookiesFound
| LogExtractionError (msg : string)
| LogCookiesUpdated (domain cookieString : string)
| LogCannotApply (noClient : bool)
| LogApplied (domain cookieString : string)
| LogNoCookiesForDomain (domain : string)
| LogCleared (domain : string)
| LogAddRefused
| LogAdded (domain cookieString : string).

(** Was the event written by [applyCookiesForDomain]? Every path through
    that method writes exactly one of these, and no other method does. *)
Definition isApplyEvent (e : Event) : bool :=
  match e with
  | LogCannotApply _ | LogApplied _ _ | LogNoCookiesForDomain _ => true
  | _ => false
  end.

(** ** The [SOAPClient] instance *)

Record SOAPClient := {
  client : option Client;
  authCookie : option string;
  wsdlUrl : option string;
  serviceUrl : option string;
  sessionCookies : gmap string (list string);
  currentDomain : option string;
  console : list Event
}.

(** [new SOAPClient()] *)
Definition newSOAPClient : SOAPClient :=
  {| client := None; authCookie := None; wsdlUrl := None; serviceUrl := None;
     sessionCookies := ∅; currentDomain := None; console := [] |}.

Definition log (e : Event) (st : SOAPClient) : SOAPClient :=
  {| client := client st; authCookie := authCookie st; wsdlUrl := wsdlUrl st;
     serviceUrl := serviceUrl st; sessionCookies := sessionCookies st;
     currentDomain := currentDomain st; console := (console st ++ [e])%list |}.

Definition setClient (c : option Client) (st : SOAPClient) : SOAPClient :=
  {| client := c; authCookie := authCookie st; wsdlUrl := wsdlUrl st;
     serviceUrl := serviceUrl st; sessionCookies := sessionCookies st;
     currentDomain := currentDomain st; console := console st |}.

Definition setAuthCookie (a : option string) (st : SOAPClient) : SOAPClient :=
  {| client := client st; authCookie := a; wsdlUrl := wsdlUrl st;
     serviceUrl := serviceUrl st; sessionCookies := sessionCookies st;
     currentDomain := currentDomain st; console := console st |}.

Definition setWsdlUrl (u : option string) (st : SOAPClient) : SOAPClient :=
  {| client := client st; authCookie := authCookie st; wsdlUrl := u;
     serviceUrl := serviceUrl st; sessionCookies := sessionCookies st;
     currentDomain := currentDomain st; console := console st |}.

Definition setServiceUrl (u : option string) (st : SOAPClient) : SOAPClient :=
  {| client := client st; authCookie := authCookie st; wsdlUrl := wsdlUrl st;
     serviceUrl := u; sessionCookies := sessionCookies st;
     currentDomain := currentDomain st; console := console st |}.

Definition setSessionCookies (m : gmap string (list string)) (st : SOAPClient) : SOAPClient :=
  {| client := client st; authCookie := authCookie st; wsdlUrl := wsdlUrl st;
     serviceUrl := serviceUrl st; sessionCookies := m;
     currentDomain := currentDomain st; console := console st |}.

Definition setCurrentDomain (d : option string) (st : SOAPClient) : SOAPClient :=
  {| client := client st; authCookie := authCookie st; wsdlUrl := wsdlUrl st;
     serviceUrl := serviceUrl st; sessionCookies := sessionCookies st;
     currentDomain := d; console := console st |}.

(** [!!this.currentDomain]: the domain when it is set and not empty. *)
Definition domainInUse (st : SOAPClient) : option string :=
  match currentDomain st with
  | Some d => if truthy d then Some d else None
  | None => None
  end.

(** ** Methods that may throw: state passing with a completion *)

Definition M (A : Type) : Type := SOAPClient -> SOAPClient * Completion A.

Definition ret {A} (a : A) : M A := fun st => (st, Return a).
Definition throw {A} (e : JsError) : M A := fun st => (st, Throw e).
Definition bind {A B} (m : M A) (k : A -> M B) : M B :=
  fun st =>
    match m st with
    | (st', Return a) => k a st'
    | (st', Throw e) => (st', Throw e)
    end.
Definition modify (f : SOAPClient -> SOAPClient) : M unit := fun st => (f st, Return tt).
Definition completed {A} (c : Completion A) : M A := fun st => (st, c).

Notation "'do' x <~ m ; k" := (bind m (fun x => k))
  (at level 10, x name, m at level 100, k at level 200).
Notation "m >>> k" := (bind m (fun _ => k))
  (at level 100, k at level 200, right associativity).

(** The [TypeError] of reading [.join] off [undefined]. *)
Definition joinOfUndefined : JsError :=
  {| message := "Cannot read properties of undefined (reading 'join')" |}.

(** The [TypeError] of calling the method [property] on the [null]
    client. *)
Definition callOnNull (property : string) : JsError :=
  {| message := "Cannot read properties of null (reading '" +:+ property +:+ "')" |}.

(** The [TypeError] of [.map] on a string. *)
Definition mapNotAFunction : JsError :=
  {| message := "setCookieHeader.map is not a function" |}.

(** ** The cookie store and its application to the connection *)

(** [existing.startsWith(name + '=')]: the test [processCookies] uses for
    "existing cookie with same name". *)
Definition entryFor (name existing : string) : bool :=
  startsWith (name +:+ "=") existing.

(** [applyCookiesForDomain(domain)] *)
Definition applyCookiesForDomain (domain : string) (st : SOAPClient) : SOAPClient :=
  match client st with
  | None => log (LogCannotApply true) st
  | Some c =>
      if negb (truthy domain) then log (LogCannotApply false) st
      else
        match sessionCookies st !! domain with
        | Some (x :: l) =>
            let cookieString := join "; " (x :: l) in
            let c1 :=
              match httpHeaders c !! "Cookie" with
              | Some v => if truthy v then deleteHttpHeader "Cookie" c else c
              | None => c
              end in
            let c2 := addHttpHeader "Cookie" cookieString c1 in
            log (LogApplied domain cookieString)
              (setAuthCookie (Some cookieString) (setClient (Some c2) st))
        | _ => log (LogNoCookiesForDomain domain) st
        end
  end.

(** One turn of the [forEach] in [processCookies]: [domainCookies] is the
    array read before the loop, not the one stored by the turn before. *)
Definition storeCookie (domainCookies : list string) (domain : string)
    (st : SOAPClient) (cookie : string) : SOAPClient :=
  let cookiePart := firstField ";" cookie in
  let name := firstField "=" cookiePart in
  let filtered :=
    (filter (fun existing => negb (entryFor name existing)) domainCookies
     ++ [cookiePart])%list in
  setSessionCookies (<[domain := filtered]> (sessionCookies st)) st.

(** [processCookies(cookies, domain)] *)
Definition processCookies (cookies : HeaderValue) (domain : string) : M unit :=
  fun st =>
    let cookieArray := toArray cookies in
    let domainCookies := default [] (sessionCookies st !! domain) in
    let st1 := fold_left (storeCookie domainCookies domain) cookieArray st in
    let st2 := applyCookiesForDomain domain st1 in
    match sessionCookies st2 !! domain with
    | Some l => (log (LogCookiesUpdated domain (join "; " l)) st2, Return tt)
    | None => (st2, Throw joinOfUndefined)
    end.

(** ** Extraction *)

(** The body of the [try] block of [extractCookiesFromMultipleSources]. *)
Definition extractionAttempt {A} (res : CallResult A) (domain : string) : M unit :=
  do foundCookies <~
    (fun st =>
       match setCookieOf (match client st with
                          | Some c => lastResponseHeaders c
                          | None => None
                          end) with
       | Some v =>
           (modify (log LogFoundInClientHeaders) >>>
            processCookies v domain >>>
            ret true) st
       | None => ret false st
       end) ;
  do foundCookies <~
    (if negb foundCookies then
       match raw res with
       | RawResponse h =>
           match setCookieOf h with
           | Some v =>
               modify (log LogFoundInRawHeaders) >>>
               processCookies v domain >>>
               ret true
           | None => ret foundCookies
           end
       | _ => ret foundCookies
       end
     else ret foundCookies) ;
  do foundCookies <~
    (if negb foundCookies then
       match raw res with
       | RawText body =>
           match SetCookieScan.scan body with
           | Some cookies =>
               modify (log LogFoundInRawText) >>>
               processCookies (HArr cookies) domain >>>
               ret true
           | None => ret foundCookies
           end
       | _ => ret foundCookies
       end
     else ret foundCookies) ;
  if negb foundCookies then modify (log LogNoCookiesFound) else ret tt.

(** [extractCookiesFromMultipleSources(result, responseHeaders)]; the second
    argument is never read. *)
Definition extractCookiesFromMultipleSources {A} (res : CallResult A)
    (st : SOAPClient) : SOAPClient :=
  match domainInUse st with
  | None => st
  | Some d =>
      match extractionAttempt res d st with
      | (st', Return _) => st'
      | (st', Throw e) => log (LogExtractionError (message e)) st'
      end
  end.

(** [extractAndStoreCookies(rawResponse)] *)
Definition extractAndStoreCookies (rawResponse : Raw) (st : SOAPClient) : SOAPClient :=
  extractCookiesFromMultipleSources {| result := tt; raw := rawResponse |} st.

(** ** The coordinator *)

Definition recordHeaders (h : option (gmap string HeaderValue)) (c : Client) : Client :=
  {| httpHeaders := httpHeaders c; lastResponseHeaders := h |}.

Definition notConnected : JsError := {| message := "Not connected to any service" |}.

(** [executeMethod(methodName, parameters)]; [reply] is what the service
    answered to this call with these parameters. *)
Definition executeMethod {A} (methodName : string) (reply : RpcReply A) : M A :=
  fun st =>
    match client st with
    | None => (st, Throw notConnected)
    | Some c =>
        match reply with
        | RpcFailed err recorded =>
            (log (ErrExecute methodName (message err))
               (setClient (Some (recordHeaders recorded c)) st),
             Throw err)
        | RpcDone res recorded =>
            let st1 := setClient (Some (recordHeaders recorded c)) st in
            (extractCookiesFromMultipleSources res st1, Return (result res))
        end
    end.

(** The body of the [try] block of [connect]; [options] is the
    [wsdl_headers] entry of the caller's options. *)
Definition connectAttempt (env : Platform) (url : string)
    (options : gmap string string) : M unit :=
  modify (setWsdlUrl (Some url)) >>>
  do targetDomain <~ completed (hostname env (Some url)) ;
  do wsdl_headers <~
    (fun st =>
       match sessionCookies st !! targetDomain with
       | Some (x :: l) =>
           let cookieString := join "; " (x :: l) in
           (log (LogPreload targetDomain cookieString) st,
            Return (options ∪ {[ "Cookie" := cookieString ]}))
       | _ => (st, Return options)
       end) ;
  match createClientAsync env url wsdl_headers with
  | CreateRejected err => throw err
  | CreateResolved c location =>
      modify (setClient (Some c)) >>>
      do loc <~ completed location ;
      modify (setServiceUrl loc) >>>
      do serviceDomain <~ completed (hostname env loc) ;
      modify (log (LogConnected (default "undefined" loc) serviceDomain)) >>>
      (fun st =>
         match domainInUse st with
         | Some old =>
             if String.eqb old serviceDomain then ret tt st
             else modify (log (LogSwitching old serviceDomain)) st
         | None => ret tt st
         end) >>>
      modify (setCurrentDomain (Some serviceDomain)) >>>
      modify (applyCookiesForDomain serviceDomain)
  end.

(** [connect(wsdlUrl, options)]: [true], or [false] after any error. *)
Definition connect (env : Platform) (url : string) (options : gmap string string)
    (st : SOAPClient) : SOAPClient * bool :=
  match connectAttempt env url options st with
  | (st', Return _) => (st', true)
  | (st', Throw e) => (log (ErrConnect (message e)) st', false)
  end.

(** [getSessionCookies()]: [None] is [null]. *)
Definition getSessionCookies (st : SOAPClient) : option string :=
  match domainInUse st with
  | None => None
  | Some d =>
      match sessionCookies st !! d with
      | Some cookies => Some (join "; " cookies)
      | None => None
      end
  end.

(** [clearSessionCookies(domain = null)] *)
Definition clearSessionCookies (domain : option string) (st : SOAPClient) : SOAPClient :=
  let targetDomain :=
    match domain with
    | Some d => if truthy d then Some d else currentDomain st
    | None => currentDomain st
    end in
  match targetDomain with
  | Some d =>
      if truthy d then
        log (LogCleared d) (setSessionCookies (delete d (sessionCookies st)) st)
      else st
  | None => st
  end.

(** [listAllCookies()] *)
Definition listAllCookies (st : SOAPClient) : gmap string (list string) :=
  sessionCookies st.

(** [addCookiesForDomain(domain, cookieString)] *)
Definition addCookiesForDomain (domain cookieString : string)
    (st : SOAPClient) : SOAPClient * bool :=
  if negb (truthy domain) || negb (truthy cookieString) then (log LogAddRefused st, false)
  else
    let cookies := map trim (split ";" cookieString) in
    let st1 := setSessionCookies (<[domain := cookies]> (sessionCookies st)) st in
    let st2 :=
      match currentDomain st1, client st1 with
      | Some d, Some _ =>
          if String.eqb d domain then applyCookiesForDomain domain st1 else st1
      | _, _ => st1
      end in
    (log (LogAdded domain cookieString) st2, true).

(** [authenticateWithCookie(username, password)]; [posted] is what the
    request to the service's [/auth] ends in: a rejection, or a response
    with its [set-cookie] header. *)
Definition authenticateWithCookie (posted : Completion (option HeaderValue))
    (st : SOAPClient) : SOAPClient * option string :=
  match posted with
  | Throw e => (log (ErrCookieAuth (message e)) st, None)
  | Return None => (st, None)
  | Return (Some (HArr [])) => (st, None)
  | Return (Some (HArr (x :: l))) =>
      (st, Some (join "; " (map (firstField ";") (x :: l))))
  | Return (Some (HStr s)) =>
      if truthy s then (log (ErrCookieAuth (message mapNotAFunction)) st, None)
      else (st, None)
  end.

(** The body of the [try] block of [authenticate]; the security object set
    by the basic and WS-Security methods is not part of the cookie state. *)
Definition authenticateAttempt (authMethod : string)
    (posted : Completion (option HeaderValue)) : M bool :=
  fun st =>
    if String.eqb authMethod "basic" || String.eqb authMethod "wsse" then
      match client st with
      | None => (st, Throw (callOnNull "setSecurity"))
      | Some _ => (log (LogSecurityConfigured authMethod) st, Return true)
      end
    else if String.eqb authMethod "cookie" then
      match authenticateWithCookie posted st with
      | (st1, Some cookie) =>
          if truthy cookie then
            let st2 := setAuthCookie (Some cookie) st1 in
            match client st2 with
            | None => (st2, Throw (callOnNull "addHttpHeader"))
            | Some c =>
                (log LogCookieAuthenticated
                   (setClient (Some (addHttpHeader "Cookie" cookie c)) st2),
                 Return true)
            end
          else (st1, Return false)
      | (st1, None) => (st1, Return false)
      end
    else (st, Return false).

(** [authenticate(username, password, authMethod)] *)
Definition authenticate (authMethod : string)
    (posted : Completion (option HeaderValue)) (st : SOAPClient) : SOAPClient * bool :=
  match authenticateAttempt authMethod posted st with
  | (st', Return b) => (st', b)
  | (st', Throw e) => (log (ErrAuthenticate (message e)) st', false)
  end.

(** ** Sessions: what a caller can do to an instance *)

Inductive Call :=
| CallConnect (env : Platform) (url : string) (options : gmap string string)
| CallAuthenticate (authMethod : string) (posted : Completion (option HeaderValue))
| CallExecuteMethod (methodName : string) (reply : RpcReply string)
| CallExtractAndStore (rawResponse : Raw)
| CallProcessCookies (cookies : HeaderValue) (domain : string)
| CallApplyCookies (domain : string)
| CallClearSessionCookies (domain : option string)
| CallAddCookies (domain cookieString : string).

(** The instance after a call, whatever the call returned or threw. *)
Definition perform (c : Call) (st : SOAPClient) : SOAPClient :=
  match c with
  | CallConnect env url options => fst (connect env url options st)
  | CallAuthenticate authMethod posted => fst (authenticate authMethod posted st)
  | CallExecuteMethod methodName reply => fst (executeMethod methodName reply st)
  | CallExtractAndStore rawResponse => extractAndStoreCookies rawResponse st
  | CallProcessCookies cookies domain => fst (processCookies cookies domain st)
  | CallApplyCookies domain => applyCookiesForDomain domain st
  | CallClearSessionCookies domain => clearSessionCookies domain st
  | CallAddCookies domain cookieString => fst (addCookiesForDomain domain cookieString st)
  end.

(** The states an instance can be in: a new one, and any state after a call. *)
Inductive reachable : SOAPClient -> Prop :=
| reachable_new : reachable newSOAPClient
| reachable_call (c : Call) (st : SOAPClient) :
    reachable st -> reachable (perform c st).

(** ** Properties of the stored collections *)

(** The entries of a collection that are for [name]. *)
Definition entriesFor (name : string) (cookies : list string) : list string :=
  filter (fun existing => Is_true (entryFor name existing)) cookies.

(** At most one entry per cookie name. *)
Definition onePerName (cookies : list string) : Prop :=
  forall name : string, length (entriesFor name cookies) <= 1.

(** ** A platform and states for the examples *)

Module Demo.

(** ASCII letters in lower case, as [new URL] writes a host. *)
Definition lowerCase (a : ascii) : ascii :=
  let n := nat_of_ascii a in
  if Nat.leb 65 n && Nat.leb n 90 then ascii_of_nat (n + 32) else a.

Fixpoint toLowerCase (s : string) : string :=
  match s with
  | EmptyString => EmptyString
  | String a s' => String (lowerCase a) (toLowerCase s')
  end.

(** [new URL(u).hostname] on the URLs of the examples: the host of
    [http://host[:port]/path], in lower case. The examples that need a
    text which is no URL use one without a scheme; [undefined] is none
    either. Texts under other schemes do not occur in the examples. *)
Definition hostOf (u : option string) : Completion string :=
  match u with
  | Some s =>
      match SetCookieScan.literal_ci "http://" s with
      | Some rest => Return (toLowerCase (before ":" (before "/" rest)))
      | None => Throw {| message := "Invalid URL" |}
      end
  | None => Throw {| message := "Invalid URL" |}
  end.

Definition freshClient : Client :=
  {| httpHeaders := ∅; lastResponseHeaders := None |}.

(** Every WSDL describes one service, bound at the WSDL's own URL. *)
Definition platform : Platform :=
  {| hostname := hostOf;
     createClientAsync := fun u _ => CreateResolved freshClient (Return (Some u)) |}.

(** No WSDL can be fetched. *)
Definition offline : Platform :=
  {| hostname := hostOf;
     createClientAsync := fun _ _ =>
       CreateRejected {| message := "connect ECONNREFUSED" |} |}.

Definition setCookieHeaders (v : HeaderValue) : option (gmap string HeaderValue) :=
  Some {[ "set-cookie" := v ]}.

(** A successful call answering [payload], with the given response
    headers on the client and the given [raw]. *)
Definition answer (payload : string) (h : option (gmap string HeaderValue))
    (r : Raw) : RpcReply string :=
  RpcDone {| result := payload; raw := r |} h.

Definition domainA : string := "a.example.com".
Definition loginWsdl : string := "http://a.example.com/Login.svc?wsdl".
Definition otherWsdl : string := "http://b.example.org/Other.svc?wsdl".

(** Connected to the login service of [a.example.com], nothing stored. *)
Definition connectedA : SOAPClient :=
  perform (CallConnect platform loginWsdl ∅) newSOAPClient.

(** The login call answered with [Set-Cookie: SID=abc123; Path=/]. *)
Definition loginReply : RpcReply string :=
  answer "welcome" (setCookieHeaders (HArr ["SID=abc123; Path=/"])) RawUndefined.

(** After the login call: [SID=abc123] stored and attached. *)
Definition loggedInA : SOAPClient :=
  perform (CallExecuteMethod "Login" loginReply) connectedA.

(** A call answered without any cookie. *)
Definition plainReply : RpcReply string := answer "data" None RawUndefined.

(** A value-less cookie [foo] merged once into a new instance. *)
Definition fooOnce : SOAPClient :=
  perform (CallProcessCookies (HStr "foo") domainA) newSOAPClient.

(** Cookies injected by hand, with one name twice. *)
Definition injected : SOAPClient :=
  perform (CallAddCookies domainA "A=1; A=2") newSOAPClient.

End Demo.

(** ** Vocabulary of the statements *)

(** [cookie.split(';')[0]]: the cookie without its attributes. *)
Definition cookiePartOf (cookie : string) : string := firstField ";" cookie.

(** [cookiePart.split('=')[0]] *)
Definition cookieNameOf (cookie : string) : string := firstField "=" (cookiePartOf cookie).

(** A cookie of the form [name=value]. *)
Definition isNameValue (cookie : string) : bool := contains "=" (cookiePartOf cookie).

(** [this.sessionCookies.get(domain) || []] *)
Definition collection (domain : string) (st : SOAPClient) : list string :=
  default [] (sessionCookies st !! domain).

(** What one turn of [processCookies] stores for [cookie] over [old]. *)
Definition mergedInto (old : list string) (cookie : string) : list string :=
  (filter (fun existing => negb (entryFor (cookieNameOf cookie) existing)) old
   ++ [cookiePartOf cookie])%list.

(** Merging one raw cookie string: [processCookies(cookie, domain)]. *)
Definition merge (cookie domain : string) (st : SOAPClient) : SOAPClient :=
  fst (processCookies (HStr cookie) domain st).

(** The name of a stored entry, read the way [processCookies] reads the
    name of an incoming cookie. *)
Definition namedAs (name existing : string) : bool :=
  String.eqb (firstField "=" existing) name.

(** The merge as a reader expects it, for a notion [sameName] of "entry with
    that name": entries with the cookie's name go, the cookie comes last,
    and the collection then holds exactly one entry for the name of each of
    its entries. *)
Definition mergeAsExpected (sameName : string -> string -> bool)
    (st : SOAPClient) (domain cookie : string) : Prop :=
  let old := collection domain st in
  let new := collection domain (merge cookie domain st) in
  new = (filter (fun e => negb (sameName (cookieNameOf cookie) e)) old
         ++ [cookiePartOf cookie])%list
  /\ forall e, e ∈ new ->
       length (filter (fun e' => Is_true (sameName (firstField "=" e) e')) new) = 1.

(** Every entry has the form [name=value]. *)
Definition allNameValue (cookies : list string) : Prop :=
  Forall (fun e => contains "=" e = true) cookies.

(** No two entries with the same name, the name of an entry being the
    text before its first [=]. *)
Definition distinctNames (cookies : list string) : Prop :=
  forall name : string,
    length (filter (fun e => Is_true (namedAs name e)) cookies) <= 1.

(** The events written since [before]. *)
Definition eventsSince (before after : SOAPClient) : list Event :=
  drop (length (console before)) (console after).

(** [applyCookiesForDomain] ran between [before] and [after]. *)
Definition reapplied (before after : SOAPClient) : Prop :=
  exists e, e ∈ eventsSince before after /\ Is_true (isApplyEvent e).

(** How often [applyCookiesForDomain] ran between [before] and [after]. *)
Definition applications (before after : SOAPClient) : nat :=
  length (filter (fun e => Is_true (isApplyEvent e)) (eventsSince before after)).

(** The extraction strategies, each from the call result and the instance
    to the [set-cookie] value it finds and the event it reports. *)
Definition Strategy (A : Type) : Type :=
  CallResult A -> SOAPClient -> option (Event * HeaderValue).

Definition fromClientHeaders {A} : Strategy A := fun _ st =>
  match client st with
  | Some c => option_map (pair LogFoundInClientHeaders) (setCookieOf (lastResponseHeaders c))
  | None => None
  end.

Definition fromRawHeaders {A} : Strategy A := fun res _ =>
  match raw res with
  | RawResponse h => option_map (pair LogFoundInRawHeaders) (setCookieOf h)
  | _ => None
  end.

Definition fromRawText {A} : Strategy A := fun res _ =>
  match raw res with
  | RawText body =>
      option_map (fun l => (LogFoundInRawText, HArr l)) (SetCookieScan.scan body)
  | _ => None
  end.

Definition strategies {A} : list (Strategy A) :=
  [fromClientHeaders; fromRawHeaders; fromRawText].

(** The yield of the first strategy, in order, that yields anything. *)
Fixpoint firstYield {A} (l : list (Strategy A)) (res : CallResult A)
    (st : SOAPClient) : option (Event * HeaderValue) :=
  match l with
  | [] => None
  | s :: l' =>
      match s res st with
      | Some y => Some y
      | None => firstYield l' res st
      end
  end.

(** Extraction as the ordered list of strategies describes it: the first
    yield is merged and nothing else is looked at. *)
Definition extractByPriority {A} (res : CallResult A) (st : SOAPClient) : SOAPClient :=
  match domainInUse st with
  | None => st
  | Some d =>
      match firstYield strategies res st with
      | None => log LogNoCookiesFound st
      | Some (found, v) =>
          match processCookies v d (log found st) with
          | (st', Return _) => st'
          | (st', Throw e) => log (LogExtractionError (message e)) st'
          end
      end
  end.

(** [this.client && this.client.lastResponseHeaders] *)
Definition lastHeaders (st : SOAPClient) : option (gmap string HeaderValue) :=
  match client st with
  | Some c => lastResponseHeaders c
  | None => None
  end.

(** A [set-cookie] value with one or more cookie values in it. *)
Definition holdsCookies (v : HeaderValue) : bool :=
  match toArray v with
  | [] => false
  | _ :: _ => true
  end.

(** A strategy that only counts as yielding when it yields one or more
    cookie values. *)
Definition withCookies {A} (s : Strategy A) : Strategy A := fun res st =>
  match s res st with
  | Some (found, v) => if holdsCookies v then Some (found, v) else None
  | None => None
  end.

(** The store after extraction as a reader expects it: the values of the
    first strategy, in order, that yields one or more cookie values are
    merged; without such a strategy the store stays as it is. *)
Definition extractionAsClaimed {A} (res : CallResult A) (st : SOAPClient) : Prop :=
  forall d, domainInUse st = Some d ->
    sessionCookies (extractCookiesFromMultipleSources res st)
    = match firstYield (map withCookies strategies) res st with
      | Some (_, v) => sessionCookies (fst (processCookies v d st))
      | None => sessionCookies st
      end.

(** The rendering as a reader expects it: the entries of the current
    domain joined in their order, [null] without entries, and never the
    empty text. *)
Definition rendersAsClaimed (st : SOAPClient) : Prop :=
  match domainInUse st with
  | None => getSessionCookies st = None
  | Some d =>
      match collection d st with
      | [] => getSessionCookies st = None
      | x :: l => getSessionCookies st = Some (join "; " (x :: l))
      end
  end
  /\ getSessionCookies st <> Some EmptyString.

(** The [wsdl_headers] that [connect] hands to [soap.createClientAsync]. *)
Definition wsdlHeadersFor (targetDomain : string) (options : gmap string string)
    (st : SOAPClient) : gmap string string :=
  match sessionCookies st !! targetDomain with
  | Some (x :: l) => options ∪ {[ "Cookie" := join "; " (x :: l) ]}
  | _ => options
  end.

(** Two instances that differ at most in their console output. *)
Definition sameSession (st st' : SOAPClient) : Prop :=
  client st' = client st /\ authCookie st' = authCookie st
  /\ wsdlUrl st' = wsdlUrl st /\ serviceUrl st' = serviceUrl st
  /\ sessionCookies st' = sessionCookies st /\ currentDomain st' = currentDomain st.

(** A failed construction as the state machine draws it: back to
    [Disconnected], the session as before the attempt. *)
Definition failedConnectAsDrawn (env : Platform) (url : string)
    (options : gmap string string) (st : SOAPClient) : Prop :=
  let st' := fst (connect env url options st) in
  client st' = None /\ sameSession st st'.

(** An invariant of the store: every stored collection satisfies [P]. *)
Definition storeAll (P : list string -> Prop) (st : SOAPClient) : Prop :=
  forall (d : string) (cookies : list string),
    sessionCookies st !! d = Some cookies -> P cookies.

(** At most one entry per cookie name, in every domain. *)
Definition storeOnePerName (st : SOAPClient) : Prop := storeAll onePerName st.

(** What a call must bring for [P] to survive it: only the caller-supplied
    collection of [addCookiesForDomain] is stored as given. *)
Definition suppliesOnly (P : list string -> Prop) (c : Call) : Prop :=
  match c with
  | CallAddCookies _ cookieString => P (map trim (split ";" cookieString))
  | _ => True
  end.

(** [P] holds of whatever a merge stores, over a collection that is new
    or satisfies [P]. *)
Definition mergeClosed (P : list string -> Prop) : Prop :=
  forall (old : list string) (cookie : string),
    old = [] \/ P old -> P (mergedInto old cookie).

(** ** The wrapper of [src/index.js]

    [SOAPClientWrapper] holds one [SOAPClient] (its [client] field) and
    turns what the methods of that instance return or throw into result
    objects. The instance is the state; the WSDL parser and the profile
    store of the wrapper play no part in the methods below. *)

Module Wrapper.

(** The [error] field of a result: an error's message, or the text
    [Failed after N attempts. Last error: E] of [connectWithRetry], where
    an [undefined] last error is [None]. *)
Inductive ErrorText :=
| Message (msg : string)
| FailedAfter (maxRetries : nat) (lastError : option string).

(** The [error] of a single attempt, as the loop of [connectWithRetry]
    keeps it: a message, or [undefined]. *)
Definition messageOf (e : option ErrorText) : option string :=
  match e with
  | Some (Message msg) => Some msg
  | _ => None
  end.

(** [{ success, error, result }]; fields a result does not have are [None]. *)
Record Result (A : Type) := {
  success : bool;
  error : option ErrorText;
  payload : option A
}.
Arguments success {A} _.
Arguments error {A} _.
Arguments payload {A} _.

(** [connect(wsdlUrl, options)]: [SOAPClient.connect] returns and never
    throws, so the [catch] of the wrapper is never entered and no result
    of it carries an [error]. *)
Definition connect (env : Platform) (url : string) (options : gmap string string)
    (st : SOAPClient) : SOAPClient * Result unit :=
  match connect env url options st with
  | (st', ok) => (st', {| success := ok; error := None; payload := None |})
  end.

(** [executeMethod(methodName, parameters)] *)
Definition executeMethod {A} (methodName : string) (reply : RpcReply A)
    (st : SOAPClient) : SOAPClient * Result A :=
  match executeMethod methodName reply st with
  | (st', Return r) => (st', {| success := true; error := None; payload := Some r |})
  | (st', Throw e) =>
      (st', {| success := false; error := Some (Message (message e)); payload := None |})
  end.

(** The loop of [connectWithRetry], at turn [i] with [remaining] turns to
    go; [platforms i] is what the platform answers during turn [i]. The
    pause between two turns changes nothing in the instance. *)
Fixpoint retryLoop (platforms : nat -> Platform) (url : string)
    (options : gmap string string) (maxRetries i remaining : nat)
    (lastError : option string) (st : SOAPClient) : SOAPClient * Result unit :=
  match remaining with
  | O =>
      (st, {| success := false; error := Some (FailedAfter maxRetries lastError);
              payload := None |})
  | S remaining' =>
      match connect (platforms i) url options st with
      | (st', res) =>
          if success res then (st', res)
          else retryLoop platforms url options maxRetries (S i) remaining'
                 (messageOf (error res)) st'
      end
  end.

(** [connectWithRetry(wsdlUrl, options, maxRetries)] *)
Definition connectWithRetry (platforms : nat -> Platform) (url : string)
    (options : gmap string string) (maxRetries : nat) (st : SOAPClient) :
    SOAPClient * Result unit :=
  retryLoop platforms url options maxRetries 0 maxRetries None st.

(** [disconnect()] *)
Definition disconnect (st : SOAPClient) : SOAPClient :=
  setWsdlUrl None (setServiceUrl None (setAuthCookie None (setClient None st))).

(** [getConnectionStatus()] *)
Record Status := {
  connected : bool;
  authenticated : bool;
  statusServiceUrl : option string;
  statusWsdlUrl : option string;
  statusDomain : option string;
  statusCookies : option string
}.

Definition getConnectionStatus (st : SOAPClient) : Status :=
  {| connected := match client st with Some _ => true | None => false end;
     authenticated := match authCookie st with Some a => truthy a | None => false end;
     statusServiceUrl := serviceUrl st;
     statusWsdlUrl := wsdlUrl st;
     statusDomain := currentDomain st;
     statusCookies := getSessionCookies st |}.

End Wrapper.

(** ** The WSDL parser of [src/wsdl-parser.js]

    [extractServiceInfo] walks the object that [xml2js] (with
    [explicitArray: false]) builds from a WSDL document: an element is an
    object with its attributes under [$] and its children under their tag
    names, a single child as the child itself and several as an array; an
    element with nothing but text is a string. *)

Module Wsdl.

#[warnings="-register-all"]
Inductive JsVal :=
| JUndefined
| JNull
| JStr (s : string)
| JArr (items : list JsVal)
| JObj (fields : list (string * JsVal)).

(** A value in a condition. *)
Definition truthyV (v : JsVal) : bool :=
  match v with
  | JUndefined | JNull => false
  | JStr s => truthy s
  | JArr _ | JObj _ => true
  end.

(** The own property [k] of an object, [undefined] when it has none. *)
Fixpoint field (k : string) (fields : list (string * JsVal)) : JsVal :=
  match fields with
  | [] => JUndefined
  | (k', v) :: rest => if String.eqb k' k then v else field k rest
  end.

(** The [TypeError] of reading a property off [undefined] or [null]. *)
Definition cannotRead (what k : string) : JsError :=
  {| message := "Cannot read properties of " +:+ what +:+ " (reading '" +:+ k +:+ "')" |}.

(** [v[k]], for the property names the parser reads: none of them is a
    built-in property of strings, arrays or objects, so only own
    properties of objects are found. *)
Definition get (k : string) (v : JsVal) : Completion JsVal :=
  match v with
  | JUndefined => Throw (cannotRead "undefined" k)
  | JNull => Throw (cannotRead "null" k)
  | JStr _ | JArr _ => Return JUndefined
  | JObj fields => Return (field k fields)
  end.

Definition andThen {A B} (c : Completion A) (k : A -> Completion B) : Completion B :=
  match c with
  | Return a => k a
  | Throw e => Throw e
  end.

Notation "'letc' x := c 'in' k" := (andThen c (fun x => k))
  (at level 10, x name, c at level 100, k at level 200).

(** [v[k1] || v[k2]] *)
Definition getEither (k1 k2 : string) (v : JsVal) : Completion JsVal :=
  letc a := get k1 v in
  if truthyV a then Return a else get k2 v.

(** [v.$[k]] *)
Definition attribute (k : string) (v : JsVal) : Completion JsVal :=
  letc attrs := get "$" v in get k attrs.

(** [Array.isArray(v) ? v : [v]] *)
Definition asArray (v : JsVal) : list JsVal :=
  match v with
  | JArr items => items
  | _ => [v]
  end.

(** A [forEach] whose turns each push some entries: the entries in order,
    or the first error thrown. *)
Fixpoint forEach {A B} (f : A -> Completion (list B)) (l : list A) : Completion (list B) :=
  match l with
  | [] => Return []
  | x :: l' =>
      letc entries := f x in
      letc more := forEach f l' in
      Return (entries ++ more)%list
  end.

Record ServiceEntry := {
  seName : JsVal; sePort : JsVal; seBinding : JsVal; seLocation : JsVal
}.

Record OperationEntry := {
  opName : JsVal; opBinding : JsVal; opSoapAction : JsVal
}.

Record TypeEntry := {
  tyName : JsVal; tyType : JsVal; tyNamespace : JsVal
}.

Record ServiceInfo := {
  targetNamespace : JsVal;
  services : list ServiceEntry;
  operations : list OperationEntry;
  types : list TypeEntry
}.

Definition invalidWsdl : JsError := {| message := "Invalid WSDL: No definitions found" |}.

(** [el[k1] ? el[k1].$[attr] : el[k2] ? el[k2].$[attr] : fallback] *)
Definition attributeOfEither (k1 k2 attr : string) (fallback : JsVal) (el : JsVal) :
    Completion JsVal :=
  letc a := get k1 el in
  if truthyV a then attribute attr a
  else
    letc b := get k2 el in
    if truthyV b then attribute attr b else Return fallback.

(** The object pushed for one port of one service. *)
Definition portEntry (service port : JsVal) : Completion (list ServiceEntry) :=
  letc name := attribute "name" service in
  letc portName := attribute "name" port in
  letc binding := attribute "binding" port in
  letc location :=
    attributeOfEither "soap:address" "soap12:address" "location" (JStr "Unknown") port in
  Return [{| seName := name; sePort := portName; seBinding := binding;
             seLocation := location |}].

Definition serviceEntries (service : JsVal) : Completion (list ServiceEntry) :=
  letc ports := getEither "port" "wsdl:port" service in
  forEach (portEntry service) (asArray ports).

(** The object pushed for one operation of one binding. *)
Definition operationEntry (binding operation : JsVal) : Completion (list OperationEntry) :=
  letc name := attribute "name" operation in
  letc bindingName := attribute "name" binding in
  letc soapAction :=
    attributeOfEither "soap:operation" "soap12:operation" "soapAction" (JStr "") operation in
  Return [{| opName := name; opBinding := bindingName; opSoapAction := soapAction |}].

Definition bindingEntries (binding : JsVal) : Completion (list OperationEntry) :=
  letc operations := getEither "operation" "wsdl:operation" binding in
  if truthyV operations then forEach (operationEntry binding) (asArray operations)
  else Return [].

(** The object pushed for one element of one schema. *)
Definition elementEntry (schema element : JsVal) : Completion (list TypeEntry) :=
  letc name := attribute "name" element in
  letc type := attribute "type" element in
  letc namespace := attribute "targetNamespace" schema in
  Return [{| tyName := name; tyType := type; tyNamespace := namespace |}].

Definition schemaEntries (schema : JsVal) : Completion (list TypeEntry) :=
  letc elements := get "xsd:element" schema in
  if truthyV elements then forEach (elementEntry schema) (asArray elements)
  else Return [].

(** [extractServiceInfo(wsdlData)] *)
Definition extractServiceInfo (wsdlData : JsVal) : Completion ServiceInfo :=
  letc definitions := getEither "definitions" "wsdl:definitions" wsdlData in
  if negb (truthyV definitions) then Throw invalidWsdl
  else
    letc namespace := attribute "targetNamespace" definitions in
    letc services := getEither "service" "wsdl:service" definitions in
    letc serviceList :=
      (if truthyV services then forEach serviceEntries (asArray services) else Return []) in
    letc bindings := getEither "binding" "wsdl:binding" definitions in
    letc operationList :=
      (if truthyV bindings then forEach bindingEntries (asArray bindings) else Return []) in
    letc types := getEither "types" "wsdl:types" definitions in
    letc typeList :=
      (if truthyV types then
         letc schemas := get "xsd:schema" types in
         if truthyV schemas then forEach schemaEntries (asArray schemas) else Return []
       else Return []) in
    Return {| targetNamespace := namespace; services := serviceList;
              operations := operationList; types := typeList |}.

(** *** WSDL documents and their [xml2js] objects *)

(** The address or operation extension of a port or operation: SOAP 1.1
    ([soap:]) or SOAP 1.2 ([soap12:]), with its one attribute. *)
Inductive Extension :=
| Soap11 (value : string)
| Soap12 (value : string).

Record PortDoc := { pName : string; pBinding : string; pAddress : option Extension }.
Record ServiceDoc := { sName : string; sPorts : list PortDoc }.
Record OperationDoc := { oName : string; oOperation : option Extension }.
Record BindingDoc := { bName : string; bOperations : list OperationDoc }.

(** A document: whether its WSDL elements carry the [wsdl:] prefix, its
    target namespace, its services and its bindings. *)
Record Document := {
  prefixed : bool;
  docNamespace : string;
  docServices : list ServiceDoc;
  docBindings : list BindingDoc
}.

Definition tag (pre : bool) (name : string) : string :=
  if pre then "wsdl:" +:+ name else name.

(** The children with one tag: no property without a child, the child
    itself when it is alone, the array of the children otherwise. *)
Definition children (key : string) (items : list JsVal) : list (string * JsVal) :=
  match items with
  | [] => []
  | [x] => [(key, x)]
  | _ => [(key, JArr items)]
  end.

Definition element (attrs : list (string * string)) (kids : list (string * JsVal)) : JsVal :=
  JObj (("$", JObj (map (fun '(k, v) => (k, JStr v)) attrs)) :: kids).

Definition encodeExtension (soapTag attr : string) (e : option Extension) :
    list (string * JsVal) :=
  match e with
  | None => []
  | Some (Soap11 v) => [("soap:" +:+ soapTag, element [(attr, v)] [])]
  | Some (Soap12 v) => [("soap12:" +:+ soapTag, element [(attr, v)] [])]
  end.

Definition encodePort (p : PortDoc) : JsVal :=
  element [("name", pName p); ("binding", pBinding p)]
    (encodeExtension "address" "location" (pAddress p)).

Definition encodeService (pre : bool) (s : ServiceDoc) : JsVal :=
  element [("name", sName s)] (children (tag pre "port") (map encodePort (sPorts s))).

Definition encodeOperation (o : OperationDoc) : JsVal :=
  element [("name", oName o)] (encodeExtension "operation" "soapAction" (oOperation o)).

Definition encodeBinding (pre : bool) (b : BindingDoc) : JsVal :=
  element [("name", bName b)]
    (children (tag pre "operation") (map encodeOperation (bOperations b))).

(** The object [xml2js] builds for the document. *)
Definition encode (d : Document) : JsVal :=
  JObj [(tag (prefixed d) "definitions",
         element [("targetNamespace", docNamespace d)]
           (children (tag (prefixed d) "service")
              (map (encodeService (prefixed d)) (docServices d))
            ++ children (tag (prefixed d) "binding")
                 (map (encodeBinding (prefixed d)) (docBindings d)))%list)].

Definition extensionValue (fallback : string) (e : option Extension) : JsVal :=
  match e with
  | None => JStr fallback
  | Some (Soap11 v) | Some (Soap12 v) => JStr v
  end.

(** One entry per port of every service, in document order. *)
Definition serviceRows (d : Document) : list ServiceEntry :=
  concat (map (fun s =>
    map (fun p => {| seName := JStr (sName s); sePort := JStr (pName p);
                     seBinding := JStr (pBinding p);
                     seLocation := extensionValue "Unknown" (pAddress p) |})
        (sPorts s)) (docServices d)).

(** One entry per operation of every binding, in document order. *)
Definition operationRows (d : Document) : list OperationEntry :=
  concat (map (fun b =>
    map (fun o => {| opName := JStr (oName o); opBinding := JStr (bName b);
                     opSoapAction := extensionValue "" (oOperation o) |})
        (bOperations b)) (docBindings d)).

(** The value of the property that [children] makes of some items. *)
Definition packed (items : list JsVal) : JsVal :=
  match items with
  | [] => JUndefined
  | [x] => x
  | _ => JArr items
  end.

(** A run whose only errors are those of reading a property off
    [undefined] or [null]. *)
Definition onlyTypeErrors {A} (c : Completion A) : Prop :=
  forall e, c = Throw e -> exists what k, e = cannotRead what k.

(** Does every service have a port? *)
Definition everyServiceHasPort (d : Document) : bool :=
  forallb (fun s => match sPorts s with [] => false | _ => true end) (docServices d).

End Wsdl.

(** ** Vocabulary of the further statements *)

(** The Cookie header attached to the connection, if any. *)
Definition cookieHeader (st : SOAPClient) : option string :=
  match client st with
  | Some c => httpHeaders c !! "Cookie"
  | None => None
  end.

(** A text without line break. *)
Fixpoint oneLine (s : string) : bool :=
  match s with
  | EmptyString => true
  | String a s' => SetCookieScan.notLineBreak a && oneLine s'
  end.

(** A cookie value as a header line carries it: not empty, on one line,
    not starting with white space. *)
Definition headerValue (v : string) : bool :=
  match v with
  | EmptyString => false
  | String a _ => negb (isSpace a) && oneLine v
  end.

(** The lines [Set-Cookie: v] of a response text, each ended by CR LF. *)
Fixpoint headerLines (values : list string) : string :=
  match values with
  | [] => EmptyString
  | v :: values' => "Set-Cookie: " +:+ v +:+ CR +:+ LF +:+ headerLines values'
  end.

(** An entry as [addCookiesForDomain] stores it and reads it back: no
    [;] inside, no white space around. *)
Definition plainEntry (e : string) : Prop :=
  contains ";" e = false /\ trim e = e.

(** * Strings *)

Section StringFacts.

Lemma firstField_before (c : ascii) (s : string) : firstField c s = before c s.
Proof.
  unfold firstField. induction s as [|a s IH]; simpl; [reflexivity|].
  destruct (Ascii.eqb a c); simpl; [reflexivity|].
  destruct (split c s) as [|h t]; simpl in *; congruence.
Qed.

Lemma split_not_nil (c : ascii) (s : string) : split c s <> [].
Proof.
  induction s as [|a s IH]; simpl; [discriminate|].
  destruct (Ascii.eqb a c); [discriminate|].
  destruct (split c s); discriminate.
Qed.

Lemma startsWith_refl_app (p r : string) : startsWith p (p +:+ r) = true.
Proof.
  induction p as [|a p IH]; simpl; [reflexivity|].
  rewrite Ascii.eqb_refl. exact IH.
Qed.

(** A text with a [c] in it starts with its first field followed by [c]. *)
Lemma startsWith_before (c : ascii) (s : string) :
  contains c s = true ->
  startsWith (before c s +:+ String c EmptyString) s = true.
Proof.
  induction s as [|a s IH]; simpl; [discriminate|].
  destruct (Ascii.eqb a c) eqn:E; simpl.
  - intros _. apply Ascii.eqb_eq in E. subst a. rewrite Ascii.eqb_refl. reflexivity.
  - intros H. rewrite Ascii.eqb_refl. auto.
Qed.

(** A text without [c] is its own first field, too short to start with
    that field followed by [c]. *)
Lemma startsWith_before_none (c : ascii) (s : string) :
  contains c s = false ->
  startsWith (before c s +:+ String c EmptyString) s = false.
Proof.
  induction s as [|a s IH]; simpl; [reflexivity|].
  destruct (Ascii.eqb a c) eqn:E; simpl; [discriminate|].
  intros H. rewrite Ascii.eqb_refl. auto.
Qed.

(** If [s] starts with [n] and a [c], whatever starts with [n] and a [c]
    starts with the first field of [s] and a [c]. *)
Lemma startsWith_before_finer (c : ascii) (n s e : string) :
  startsWith (n +:+ String c EmptyString) s = true ->
  startsWith (n +:+ String c EmptyString) e = true ->
  startsWith (before c s +:+ String c EmptyString) e = true.
Proof.
  revert s e. induction n as [|a n IH]; intros s e; simpl.
  - destruct s as [|b s]; [discriminate|].
    destruct e as [|b' e]; [discriminate|].
    destruct (Ascii.eqb c b) eqn:E1; [|discriminate].
    destruct (Ascii.eqb c b') eqn:E2; [|discriminate].
    intros _ _. simpl. rewrite Ascii.eqb_sym, E1. simpl. rewrite E2. reflexivity.
  - destruct s as [|b s]; [discriminate|].
    destruct e as [|b' e]; [discriminate|].
    destruct (Ascii.eqb a b) eqn:E1; [|discriminate].
    destruct (Ascii.eqb a b') eqn:E2; [|discriminate].
    intros Hs He. simpl.
    apply Ascii.eqb_eq in E1. apply Ascii.eqb_eq in E2. subst b b'.
    destruct (Ascii.eqb a c) eqn:E3; simpl.
    + apply Ascii.eqb_eq in E3. subst a. rewrite Ascii.eqb_refl. reflexivity.
    + rewrite Ascii.eqb_refl. eauto.
Qed.

Lemma contains_before (c : ascii) (s : string) : contains c (before c s) = false.
Proof.
  induction s as [|a s IH]; simpl; [reflexivity|].
  destruct (Ascii.eqb a c) eqn:E; simpl; [reflexivity|]. rewrite E. exact IH.
Qed.

(** The rendering is the empty text for no entry and for the single
    empty entry, and for no other collection. *)
Lemma join_empty (sep : string) (l : list string) :
  sep <> EmptyString ->
  join sep l = EmptyString <-> l = [] \/ l = [EmptyString].
Proof.
  intros Hsep. destruct l as [|x [|y l]].
  - simpl. tauto.
  - simpl. split.
    + intros ->. right. reflexivity.
    + intros [H|H]; [discriminate|]. injection H as ->. reflexivity.
  - split.
    + cbn [join]. destruct x as [|a x]; [|discriminate].
      destruct sep as [|b sep]; [contradiction|discriminate].
    + intros [H|H]; discriminate.
Qed.

End StringFacts.

(** * The merge of one cookie *)

Section Merge.

Lemma entryFor_own_name (cookie : string) :
  entryFor (cookieNameOf cookie) (cookiePartOf cookie) = isNameValue cookie.
Proof.
  unfold entryFor, cookieNameOf, isNameValue.
  rewrite firstField_before.
  destruct (contains "=" (cookiePartOf cookie)) eqn:E.
  - apply startsWith_before; exact E.
  - apply startsWith_before_none; exact E.
Qed.

Lemma entryFor_finer (n cookie e : string) :
  entryFor n (cookiePartOf cookie) = true ->
  entryFor n e = true ->
  entryFor (cookieNameOf cookie) e = true.
Proof.
  unfold entryFor, cookieNameOf. rewrite firstField_before.
  apply startsWith_before_finer.
Qed.

(** After the merge, the entries for the cookie's name are the cookie
    itself when it has the form name=value, and none otherwise. *)
Lemma entriesFor_merged (old : list string) (cookie : string) :
  entriesFor (cookieNameOf cookie) (mergedInto old cookie)
  = if isNameValue cookie then [cookiePartOf cookie] else [].
Proof.
  unfold entriesFor, mergedInto. rewrite filter_app.
  rewrite list_filter_filter.
  replace (filter _ old) with (@nil string).
  - rewrite filter_singleton by exact [].
    rewrite entryFor_own_name. destruct (isNameValue cookie); reflexivity.
  - symmetry. induction old as [|x old IH]; [reflexivity|].
    rewrite filter_cons_False; [exact IH|].
    intros [H1 H2]. destruct (entryFor (cookieNameOf cookie) x); simpl in *; tauto.
Qed.

Lemma length_filter_filter {A} (P Q : A -> Prop)
    `{forall x, Decision (P x)} `{forall x, Decision (Q x)} (l : list A) :
  length (filter P (filter Q l)) <= length (filter P l).
Proof.
  induction l as [|x l IH]; [reflexivity|].
  rewrite (filter_cons Q). destruct (decide (Q x)).
  - rewrite !(filter_cons P). destruct (decide (P x)); simpl; lia.
  - rewrite (filter_cons P). destruct (decide (P x)); simpl; lia.
Qed.

Lemma onePerName_nil : onePerName [].
Proof. intros n. simpl. lia. Qed.

Lemma onePerName_singleton (x : string) : onePerName [x].
Proof.
  intros n. unfold entriesFor. rewrite filter_singleton by exact [].
  case_decide; simpl; lia.
Qed.

(** The merge keeps "at most one entry per name". *)
Lemma onePerName_merged (old : list string) (cookie : string) :
  onePerName old -> onePerName (mergedInto old cookie).
Proof.
  intros Hold n. unfold entriesFor, mergedInto. rewrite filter_app, length_app.
  rewrite filter_singleton by exact [].
  destruct (entryFor n (cookiePartOf cookie)) eqn:E.
  - rewrite decide_True by exact I. simpl.
    replace (filter _ (filter _ old)) with (@nil string); [simpl; lia|].
    symmetry. rewrite list_filter_filter.
    induction old as [|x old IH]; [reflexivity|].
    rewrite filter_cons_False.
    + apply IH. intros m. specialize (Hold m). unfold entriesFor in Hold |- *.
      rewrite filter_cons in Hold. case_decide; simpl in Hold; lia.
    + intros [H1 H2]. apply Is_true_eq_true in H1.
      rewrite (entryFor_finer n cookie x E H1) in H2. exact H2.
  - rewrite decide_False by (simpl; tauto). simpl.
    specialize (Hold n). unfold entriesFor in Hold.
    pose proof (length_filter_filter
      (fun existing => Is_true (entryFor n existing))
      (fun existing => Is_true (negb (entryFor (cookieNameOf cookie) existing)))
      old) as Hle.
    lia.
Qed.

(** Merging a name=value cookie into the result of merging it changes
    nothing. *)
Lemma mergedInto_again (old : list string) (cookie : string) :
  isNameValue cookie = true ->
  mergedInto (mergedInto old cookie) cookie = mergedInto old cookie.
Proof.
  intros Hnv. unfold mergedInto at 1. unfold mergedInto at 1.
  rewrite filter_app.
  rewrite (filter_singleton_False _ (cookiePartOf cookie)).
  - rewrite app_nil_r, list_filter_filter_l by tauto. reflexivity.
  - exact [].
  - rewrite entryFor_own_name, Hnv. simpl. tauto.
Qed.

(** On an entry of the form name=value, and for a name without [=], the
    test of the source is the comparison of names. *)
Lemma entryFor_namedAs (n e : string) :
  contains "=" n = false -> contains "=" e = true ->
  entryFor n e = namedAs n e.
Proof.
  unfold entryFor, namedAs. rewrite firstField_before.
  revert e. induction n as [|a n IH]; intros e Hn He.
  - destruct e as [|b e]; [discriminate|].
    change (startsWith ("" +:+ "=") (String b e))
      with (if Ascii.eqb "=" b then true else false).
    cbn [before]. rewrite (Ascii.eqb_sym b "=").
    destruct (Ascii.eqb "=" b); reflexivity.
  - destruct e as [|b e]; [discriminate|].
    change (startsWith (String a n +:+ "=") (String b e))
      with (if Ascii.eqb a b then startsWith (n +:+ "=") e else false).
    cbn [before contains] in Hn, He |- *.
    destruct (Ascii.eqb a "=") eqn:Ea; [discriminate|].
    destruct (Ascii.eqb b "=") eqn:Eb.
    + destruct (Ascii.eqb a b) eqn:Eab; [|reflexivity].
      apply Ascii.eqb_eq in Eab. subst b. congruence.
    + cbn [String.eqb]. rewrite (Ascii.eqb_sym b a).
      destruct (Ascii.eqb a b); [apply IH; assumption|reflexivity].
Qed.

Lemma cookieNameOf_plain (cookie : string) :
  contains "=" (cookieNameOf cookie) = false.
Proof. unfold cookieNameOf. rewrite firstField_before. apply contains_before. Qed.

Lemma namedAs_own_name (cookie : string) :
  namedAs (cookieNameOf cookie) (cookiePartOf cookie) = true.
Proof. unfold namedAs, cookieNameOf. apply String.eqb_refl. Qed.

(** Over entries of the form name=value the merge removes the entries
    with the cookie's name. *)
Lemma mergedInto_by_name (old : list string) (cookie : string) :
  allNameValue old ->
  mergedInto old cookie
  = (filter (fun e => negb (namedAs (cookieNameOf cookie) e)) old
     ++ [cookiePartOf cookie])%list.
Proof.
  intros Hold. unfold mergedInto. f_equal.
  induction Hold as [|e l He _ IH]; [reflexivity|].
  rewrite !filter_cons, IH.
  rewrite (entryFor_namedAs _ _ (cookieNameOf_plain cookie) He). reflexivity.
Qed.

Lemma allNameValue_merged (old : list string) (cookie : string) :
  isNameValue cookie = true -> allNameValue old ->
  allNameValue (mergedInto old cookie).
Proof.
  intros Hnv Hold. unfold mergedInto. apply Forall_app. split.
  - apply Forall_forall. intros e He. apply list_elem_of_filter in He as [_ He].
    revert e He. apply Forall_forall. exact Hold.
  - apply Forall_singleton. exact Hnv.
Qed.

(** The merge keeps the names of name=value entries distinct. *)
Lemma distinctNames_merged (old : list string) (cookie : string) :
  allNameValue old -> distinctNames old ->
  distinctNames (mergedInto old cookie).
Proof.
  intros Hnv Hold n. rewrite (mergedInto_by_name _ _ Hnv).
  rewrite filter_app, length_app.
  pose proof (length_filter (fun e => Is_true (namedAs n e)) [cookiePartOf cookie]) as H1.
  simpl in H1.
  destruct (String.eqb (cookieNameOf cookie) n) eqn:E.
  - apply String.eqb_eq in E. subst n.
    replace (filter _ (filter _ old)) with (@nil string); [simpl; lia|].
    symmetry. rewrite list_filter_filter.
    clear. induction old as [|x old IH]; [reflexivity|].
    rewrite filter_cons_False; [exact IH|].
    intros [H1 H2]. destruct (namedAs (cookieNameOf cookie) x); simpl in *; tauto.
  - rewrite (filter_singleton_False _ (cookiePartOf cookie)).
    + pose proof (length_filter_filter
        (fun e => Is_true (namedAs n e))
        (fun e => Is_true (negb (namedAs (cookieNameOf cookie) e))) old) as Hle.
      specialize (Hold n). simpl. lia.
    + exact [].
    + unfold namedAs. fold (cookieNameOf cookie). rewrite E. exact id.
Qed.

(** Where names are distinct, every entry is the only one of its name. *)
Lemma distinctNames_exactly_one (l : list string) (e : string) :
  distinctNames l -> e ∈ l ->
  length (filter (fun e' => Is_true (namedAs (firstField "=" e) e')) l) = 1.
Proof.
  intros Hl He. specialize (Hl (firstField "=" e)).
  assert (e ∈ filter (fun e' => Is_true (namedAs (firstField "=" e) e')) l) as Hin.
  { apply list_elem_of_filter. split; [|exact He].
    unfold namedAs. rewrite String.eqb_refl. exact I. }
  destruct (filter (fun e' => Is_true (namedAs (firstField "=" e) e')) l) as [|x l'].
  - apply elem_of_nil in Hin. contradiction.
  - simpl in *. lia.
Qed.

Lemma mergedInto_not_nil (old : list string) (cookie : string) :
  mergedInto old cookie <> [].
Proof. unfold mergedInto. intros H. apply app_eq_nil in H as [_ H]. discriminate. Qed.

End Merge.

(** * The store under [applyCookiesForDomain] and [processCookies] *)

Section StoreFacts.

Lemma apply_frame (d : string) (st : SOAPClient) :
  sessionCookies (applyCookiesForDomain d st) = sessionCookies st
  /\ currentDomain (applyCookiesForDomain d st) = currentDomain st
  /\ wsdlUrl (applyCookiesForDomain d st) = wsdlUrl st
  /\ serviceUrl (applyCookiesForDomain d st) = serviceUrl st.
Proof.
  unfold applyCookiesForDomain.
  destruct (client st) as [c|]; [|auto].
  destruct (negb (truthy d)); [auto|].
  destruct (sessionCookies st !! d) as [[|x l]|]; auto.
Qed.

(** Every run of [applyCookiesForDomain] writes one event, an apply event. *)
Lemma apply_console (d : string) (st : SOAPClient) :
  exists e, console (applyCookiesForDomain d st) = (console st ++ [e])%list
            /\ isApplyEvent e = true.
Proof.
  unfold applyCookiesForDomain.
  destruct (client st) as [c|]; [|eexists; split; reflexivity].
  destruct (negb (truthy d)); [eexists; split; reflexivity|].
  destruct (sessionCookies st !! d) as [[|x l]|]; eexists; split; reflexivity.
Qed.

Lemma apply_client_presence (d : string) (st : SOAPClient) :
  client (applyCookiesForDomain d st) = None <-> client st = None.
Proof.
  unfold applyCookiesForDomain.
  destruct (client st) as [c|] eqn:E; [|simpl; tauto].
  destruct (negb (truthy d)); [simpl; rewrite E; tauto|].
  destruct (sessionCookies st !! d) as [[|x l]|]; simpl; rewrite ?E;
    split; intros; discriminate.
Qed.

(** The loop of [processCookies] stores the merge of the last cookie
    over the collection read before the loop: every turn overwrites the
    turn before. *)
Lemma fold_storeCookie (dc : list string) (d : string) (l : list string)
    (st : SOAPClient) :
  fold_left (storeCookie dc d) l st
  = match last l with
    | Some c => setSessionCookies (<[d := mergedInto dc c]> (sessionCookies st)) st
    | None => st
    end.
Proof.
  revert st. induction l as [|a l IH]; intros st; [reflexivity|].
  simpl fold_left. rewrite IH, last_cons.
  destruct (last l) as [c|]; [|reflexivity].
  unfold storeCookie, setSessionCookies; simpl.
  rewrite insert_insert_eq. reflexivity.
Qed.

Lemma processCookies_store (v : HeaderValue) (d : string) (st : SOAPClient) :
  sessionCookies (fst (processCookies v d st))
  = match last (toArray v) with
    | Some c => <[d := mergedInto (collection d st) c]> (sessionCookies st)
    | None => sessionCookies st
    end.
Proof.
  unfold processCookies. rewrite fold_storeCookie. fold (collection d st).
  set (st1 := match last (toArray v) with Some _ => _ | None => _ end).
  destruct (apply_frame d st1) as (Hs & _).
  assert (sessionCookies (fst
    (match sessionCookies (applyCookiesForDomain d st1) !! d with
     | Some l => (log (LogCookiesUpdated d (join "; " l)) (applyCookiesForDomain d st1),
                  Return ())
     | None => (applyCookiesForDomain d st1, Throw joinOfUndefined)
     end)) = sessionCookies st1) as ->.
  { destruct (sessionCookies (applyCookiesForDomain d st1) !! d); simpl; exact Hs. }
  subst st1. destruct (last (toArray v)); reflexivity.
Qed.

Lemma processCookies_frame (v : HeaderValue) (d : string) (st : SOAPClient) :
  currentDomain (fst (processCookies v d st)) = currentDomain st
  /\ wsdlUrl (fst (processCookies v d st)) = wsdlUrl st
  /\ serviceUrl (fst (processCookies v d st)) = serviceUrl st
  /\ (client (fst (processCookies v d st)) = None <-> client st = None).
Proof.
  unfold processCookies. rewrite fold_storeCookie.
  set (st1 := match last (toArray v) with Some _ => _ | None => _ end).
  assert (currentDomain st1 = currentDomain st /\ wsdlUrl st1 = wsdlUrl st
          /\ serviceUrl st1 = serviceUrl st /\ client st1 = client st)
    as (H1 & H2 & H3 & H4).
  { subst st1. destruct (last (toArray v)); auto. }
  destruct (apply_frame d st1) as (_ & G1 & G2 & G3).
  pose proof (apply_client_presence d st1) as G4.
  destruct (sessionCookies (applyCookiesForDomain d st1) !! d); simpl;
    rewrite G1, G2, G3, G4, H1, H2, H3, H4; tauto.
Qed.

(** [processCookies] runs [applyCookiesForDomain] once, whatever it is given. *)
Lemma processCookies_console (v : HeaderValue) (d : string) (st : SOAPClient) :
  exists e rest,
    console (fst (processCookies v d st)) = (console st ++ e :: rest)%list
    /\ isApplyEvent e = true
    /\ filter (fun e => Is_true (isApplyEvent e)) rest = [].
Proof.
  unfold processCookies. rewrite fold_storeCookie.
  set (st1 := match last (toArray v) with Some _ => _ | None => _ end).
  assert (console st1 = console st) as Hc.
  { subst st1. destruct (last (toArray v)); reflexivity. }
  destruct (apply_console d st1) as (e & He & Happ).
  exists e.
  destruct (sessionCookies (applyCookiesForDomain d st1) !! d); simpl.
  - eexists [_]. rewrite He, Hc, <- app_assoc. split; [reflexivity|].
    split; [exact Happ|reflexivity].
  - exists []. rewrite He, Hc. auto.
Qed.

Lemma processCookies_storeAll (P : list string -> Prop) (v : HeaderValue)
    (d : string) (st : SOAPClient) :
  mergeClosed P -> storeAll P st -> storeAll P (fst (processCookies v d st)).
Proof.
  intros HP Hst d' l. rewrite processCookies_store.
  destruct (last (toArray v)) as [c|]; [|apply Hst].
  destruct (decide (d = d')) as [->|Hne].
  - rewrite lookup_insert_eq. intros [= <-]. apply HP.
    unfold collection. destruct (sessionCookies st !! d') as [old|] eqn:E; simpl.
    + right. eapply Hst; eassumption.
    + left. reflexivity.
  - rewrite lookup_insert_ne by exact Hne. apply Hst.
Qed.

End StoreFacts.

(** * Extraction *)

Section Extraction.

Context {A : Type}.

(** The nested conditions of the source and the ordered strategy list
    describe the same extraction. *)
Lemma extract_by_priority (res : CallResult A) (st : SOAPClient) :
  extractCookiesFromMultipleSources res st = extractByPriority res st.
Proof.
  unfold extractCookiesFromMultipleSources, extractByPriority.
  destruct (domainInUse st) as [d|]; [|reflexivity].
  unfold extractionAttempt, firstYield, strategies, fromClientHeaders,
    fromRawHeaders, fromRawText, bind, modify, ret.
  destruct (setCookieOf match client st with
                        | Some c => lastResponseHeaders c
                        | None => None
                        end) as [v|] eqn:E1.
  - assert (match client st with
            | Some c => option_map (pair LogFoundInClientHeaders)
                          (setCookieOf (lastResponseHeaders c))
            | None => None
            end = Some (LogFoundInClientHeaders, v)) as ->.
    { destruct (client st); [rewrite E1; reflexivity|discriminate]. }
    destruct (processCookies v d (log LogFoundInClientHeaders st)) as [st' [u|e]];
      reflexivity.
  - assert (match client st with
            | Some c => option_map (pair LogFoundInClientHeaders)
                          (setCookieOf (lastResponseHeaders c))
            | None => None
            end = None) as ->.
    { destruct (client st); [rewrite E1; reflexivity|reflexivity]. }
    destruct (raw res) as [|body|h]; simpl; try reflexivity.
    + destruct (SetCookieScan.scan body) as [l|]; simpl; [|reflexivity].
      destruct (processCookies (HArr l) d (log LogFoundInRawText st))
        as [st' [u|e]]; reflexivity.
    + destruct (setCookieOf h) as [v|]; simpl; [|reflexivity].
      destruct (processCookies v d (log LogFoundInRawHeaders st))
        as [st' [u|e]]; reflexivity.
Qed.

(** The first strategy alone decides when the client's response headers
    carry a [set-cookie] value. *)
Lemma firstYield_client_headers (res : CallResult A) (st : SOAPClient)
    (c : Client) (v : HeaderValue) :
  client st = Some c ->
  setCookieOf (lastResponseHeaders c) = Some v ->
  firstYield strategies res st = Some (LogFoundInClientHeaders, v).
Proof.
  intros Hc Hv. simpl. unfold fromClientHeaders. rewrite Hc, Hv. reflexivity.
Qed.

(** The yield of the strategy list, case by case. *)
Lemma firstYield_cases (res : CallResult A) (st : SOAPClient) :
  firstYield strategies res st
  = match setCookieOf (lastHeaders st) with
    | Some v => Some (LogFoundInClientHeaders, v)
    | None =>
        match raw res with
        | RawResponse h => option_map (pair LogFoundInRawHeaders) (setCookieOf h)
        | RawText body =>
            option_map (fun l => (LogFoundInRawText, HArr l)) (SetCookieScan.scan body)
        | RawUndefined => None
        end
    end.
Proof.
  unfold lastHeaders. simpl. unfold fromClientHeaders, fromRawHeaders, fromRawText.
  destruct (client st) as [c|].
  - destruct (setCookieOf (lastResponseHeaders c)); simpl; [reflexivity|].
    destruct (raw res) as [|body|h]; [reflexivity| |].
    + destruct (SetCookieScan.scan body); reflexivity.
    + destruct (setCookieOf h); reflexivity.
  - simpl. destruct (raw res) as [|body|h]; [reflexivity| |].
    + destruct (SetCookieScan.scan body); reflexivity.
    + destruct (setCookieOf h); reflexivity.
Qed.

(** The store after extraction is the store after merging the first
    yield. *)
Lemma extract_store (res : CallResult A) (st : SOAPClient) (d : string) :
  domainInUse st = Some d ->
  sessionCookies (extractCookiesFromMultipleSources res st)
  = match firstYield strategies res st with
    | Some (_, v) => sessionCookies (fst (processCookies v d st))
    | None => sessionCookies st
    end.
Proof.
  intros Hd. rewrite extract_by_priority. unfold extractByPriority. rewrite Hd.
  destruct (firstYield strategies res st) as [[ev v]|]; [|reflexivity].
  pose proof (processCookies_store v d (log ev st)) as H.
  rewrite processCookies_store.
  destruct (processCookies v d (log ev st)) as [st' [u|e]]; exact H.
Qed.

(** Where the first yield holds cookie values, it is also the first
    yield with cookie values. *)
Lemma firstYield_withCookies (l : list (Strategy A)) (res : CallResult A)
    (st : SOAPClient) :
  (forall ev v, firstYield l res st = Some (ev, v) -> holdsCookies v = true) ->
  firstYield (map withCookies l) res st = firstYield l res st.
Proof.
  induction l as [|s l IH]; intros H; [reflexivity|].
  simpl in *. unfold withCookies at 1.
  destruct (s res st) as [[ev v]|].
  - rewrite (H ev v eq_refl). reflexivity.
  - apply IH, H.
Qed.

(** No strategy reports with an apply event. *)
Lemma firstYield_event (res : CallResult A) (st : SOAPClient)
    (ev : Event) (v : HeaderValue) :
  firstYield strategies res st = Some (ev, v) -> isApplyEvent ev = false.
Proof.
  simpl. unfold fromClientHeaders, fromRawHeaders, fromRawText.
  destruct (client st) as [c|].
  - destruct (setCookieOf (lastResponseHeaders c)); simpl.
    + intros [= <- _]. reflexivity.
    + destruct (raw res) as [|body|h]; try discriminate.
      * destruct (SetCookieScan.scan body); simpl; [|discriminate].
        intros [= <- _]. reflexivity.
      * destruct (setCookieOf h); simpl; [|discriminate].
        intros [= <- _]. reflexivity.
  - destruct (raw res) as [|body|h]; try discriminate.
    + destruct (SetCookieScan.scan body); simpl; [|discriminate].
      intros [= <- _]. reflexivity.
    + destruct (setCookieOf h); simpl; [|discriminate].
      intros [= <- _]. reflexivity.
Qed.

Lemma extract_storeAll (P : list string -> Prop) (res : CallResult A)
    (st : SOAPClient) :
  mergeClosed P -> storeAll P st ->
  storeAll P (extractCookiesFromMultipleSources res st).
Proof.
  intros HP Hst. rewrite extract_by_priority. unfold extractByPriority.
  destruct (domainInUse st) as [d|]; [|exact Hst].
  destruct (firstYield strategies res st) as [[ev v]|]; [|exact Hst].
  pose proof (processCookies_storeAll P v d (log ev st) HP Hst) as H.
  destruct (processCookies v d (log ev st)) as [st' [u|e]]; exact H.
Qed.

(** Extraction leaves the connection context alone. *)
Lemma extract_frame (res : CallResult A) (st : SOAPClient) :
  currentDomain (extractCookiesFromMultipleSources res st) = currentDomain st
  /\ (client (extractCookiesFromMultipleSources res st) = None <-> client st = None).
Proof.
  rewrite extract_by_priority. unfold extractByPriority.
  destruct (domainInUse st) as [d|]; [|tauto].
  destruct (firstYield strategies res st) as [[ev v]|]; [|simpl; tauto].
  pose proof (processCookies_frame v d (log ev st)) as (H1 & _ & _ & H4).
  destruct (processCookies v d (log ev st)) as [st' [u|e]]; simpl in *; tauto.
Qed.

(** Extraction runs [applyCookiesForDomain] once when a strategy yields,
    and not at all otherwise. *)
Lemma extract_applications (res : CallResult A) (st : SOAPClient) :
  applications st (extractCookiesFromMultipleSources res st)
  = match domainInUse st, firstYield strategies res st with
    | Some _, Some _ => 1
    | _, _ => 0
    end.
Proof.
  rewrite extract_by_priority. unfold extractByPriority, applications, eventsSince.
  destruct (domainInUse st) as [d|]; [|rewrite drop_all; reflexivity].
  destruct (firstYield strategies res st) as [[ev v]|] eqn:Hy.
  - pose proof (firstYield_event _ _ _ _ Hy) as Hev.
    destruct (processCookies_console v d (log ev st)) as (e & rest & Hc & He & Hr).
    assert (forall tail,
      length (filter (fun e => Is_true (isApplyEvent e))
        (drop (length (console st)) (console st ++ ev :: e :: rest ++ tail))) =
      1 + length (filter (fun e => Is_true (isApplyEvent e)) tail)) as Hcount.
    { intros tail. rewrite drop_app_length.
      rewrite filter_cons_False by (rewrite Hev; exact id).
      rewrite filter_cons_True by (rewrite He; exact I).
      rewrite filter_app, Hr. reflexivity. }
    simpl in Hc. rewrite <- app_assoc in Hc. simpl in Hc.
    destruct (processCookies v d (log ev st)) as [st' [u|err]]; simpl in *.
    + rewrite Hc. specialize (Hcount []). rewrite app_nil_r in Hcount. exact Hcount.
    + rewrite Hc. rewrite <- app_assoc. simpl.
      exact (Hcount [LogExtractionError (message err)]).
  - simpl. rewrite drop_app_length. reflexivity.
Qed.

End Extraction.

(** * The coordinator and the store *)

Section Coordinator.

#[local] Arguments applyCookiesForDomain : simpl never.

(** [connect] never writes to the cookie store. *)
Lemma connect_store (env : Platform) (url : string) (options : gmap string string)
    (st : SOAPClient) :
  sessionCookies (fst (connect env url options st)) = sessionCookies st.
Proof.
  unfold connect, connectAttempt, bind, modify, completed, throw, ret. simpl.
  destruct (hostname env (Some url)) as [td|e]; simpl; [|reflexivity].
  destruct (sessionCookies st !! td) as [[|x l]|]; simpl;
    (destruct (createClientAsync env url _) as [err|c [loc|e]]; simpl;
     [reflexivity| |reflexivity];
     destruct (hostname env loc) as [sd|e]; simpl; [|reflexivity];
     unfold domainInUse; simpl;
     destruct (currentDomain st) as [old|]; simpl;
     [destruct (truthy old); simpl; [destruct (String.eqb old sd); simpl|]|];
     match goal with
     | |- sessionCookies (applyCookiesForDomain ?d ?s) = _ =>
         destruct (apply_frame d s) as (-> & _); reflexivity
     end).
Qed.

Lemma authenticate_store (authMethod : string)
    (posted : Completion (option HeaderValue)) (st : SOAPClient) :
  sessionCookies (fst (authenticate authMethod posted st)) = sessionCookies st.
Proof.
  unfold authenticate, authenticateAttempt, authenticateWithCookie.
  destruct (String.eqb authMethod "basic" || String.eqb authMethod "wsse").
  - destruct (client st); reflexivity.
  - destruct (String.eqb authMethod "cookie"); [|reflexivity].
    destruct posted as [[[s|[|x l]]|]|e]; simpl; try reflexivity.
    + destruct (truthy s); reflexivity.
    + destruct (truthy _); [|reflexivity].
      destruct (client st); reflexivity.
Qed.

Lemma clear_lookup (domain : option string) (st : SOAPClient)
    (d : string) (cookies : list string) :
  sessionCookies (clearSessionCookies domain st) !! d = Some cookies ->
  sessionCookies st !! d = Some cookies.
Proof.
  unfold clearSessionCookies.
  destruct (match domain with
            | Some d0 => if truthy d0 then Some d0 else currentDomain st
            | None => currentDomain st
            end) as [t|]; [|auto].
  destruct (truthy t); [|auto]. simpl.
  intros H. apply lookup_delete_Some in H. tauto.
Qed.

Lemma add_store (domain cookieString : string) (st : SOAPClient) :
  sessionCookies (fst (addCookiesForDomain domain cookieString st))
  = if truthy domain && truthy cookieString
    then <[domain := map trim (split ";" cookieString)]> (sessionCookies st)
    else sessionCookies st.
Proof.
  unfold addCookiesForDomain.
  destruct (truthy domain); simpl; [|reflexivity].
  destruct (truthy cookieString); simpl; [|reflexivity].
  destruct (currentDomain st) as [d|]; [|reflexivity].
  destruct (client st); [|reflexivity].
  destruct (String.eqb d domain); [|reflexivity].
  simpl. match goal with
         | |- sessionCookies (applyCookiesForDomain ?d ?s) = _ =>
             destruct (apply_frame d s) as (-> & _); reflexivity
         end.
Qed.

(** A property of collections that merges keep and that the caller of
    [addCookiesForDomain] respects is an invariant of the store. *)
Lemma perform_storeAll (P : list string -> Prop) (c : Call) (st : SOAPClient) :
  mergeClosed P -> suppliesOnly P c -> storeAll P st -> storeAll P (perform c st).
Proof.
  intros HP Hc Hst.
  destruct c as [env url options|authMethod posted|methodName reply|rawResponse
                |cookies domain|domain|domain|domain cookieString]; simpl.
  - intros d l. rewrite connect_store. apply Hst.
  - intros d l. rewrite authenticate_store. apply Hst.
  - unfold executeMethod. destruct (client st) as [cl|]; [|exact Hst].
    destruct reply as [err recorded|res recorded]; simpl; [exact Hst|].
    apply extract_storeAll; [exact HP|exact Hst].
  - apply extract_storeAll; assumption.
  - apply processCookies_storeAll; assumption.
  - intros d l. destruct (apply_frame domain st) as (-> & _). apply Hst.
  - intros d l H. apply clear_lookup in H. eapply Hst; eassumption.
  - intros d l. rewrite add_store.
    destruct (truthy domain && truthy cookieString); [|apply Hst].
    destruct (decide (domain = d)) as [->|Hne].
    + rewrite lookup_insert_eq. intros [= <-]. exact Hc.
    + rewrite lookup_insert_ne by exact Hne. apply Hst.
Qed.

Lemma mergeClosed_onePerName : mergeClosed onePerName.
Proof.
  intros old cookie [->|H]; apply onePerName_merged; [apply onePerName_nil|exact H].
Qed.

Lemma mergeClosed_nonempty : mergeClosed (fun cookies => cookies <> []).
Proof. intros old cookie _. apply mergedInto_not_nil. Qed.

(** No reachable store holds an empty collection. *)
Lemma reachable_nonempty (st : SOAPClient) :
  reachable st -> storeAll (fun cookies => cookies <> []) st.
Proof.
  induction 1 as [|c st _ IH].
  - intros d l H. simpl in H. rewrite lookup_empty in H. discriminate.
  - apply perform_storeAll; [apply mergeClosed_nonempty| |exact IH].
    destruct c; simpl; try exact I.
    intros H. apply map_eq_nil in H. exact (split_not_nil _ _ H).
Qed.

End Coordinator.

(** * The session scenarios of the specification *)

Section Scenarios.

Example split_pair : split ";" "X=1; Y=2" = ["X=1"; " Y=2"].
Proof. reflexivity. Qed.

Example split_empty : split ";" "" = [""].
Proof. reflexivity. Qed.

Example join_pair : join "; " ["SID=abc123"; "T=9"] = "SID=abc123; T=9".
Proof. reflexivity. Qed.

Example trim_both : trim "  Y=2 " = "Y=2".
Proof. reflexivity. Qed.

Example scan_headers :
  SetCookieScan.scan
    ("HTTP/1.1 200 OK" +:+ CR +:+ LF +:+ "set-cookie:  SID=abc123; Path=/"
     +:+ CR +:+ LF +:+ "Set-Cookie: T=9" +:+ CR +:+ LF +:+ "X: y")
  = Some ["SID=abc123; Path=/"; "T=9"].
Proof. reflexivity. Qed.

Example scan_nothing : SetCookieScan.scan "no cookies here" = None.
Proof. reflexivity. Qed.

(** The star gives white space back to the value when nothing else is left. *)
Example scan_only_spaces : SetCookieScan.scan "Set-Cookie:   " = Some [""].
Proof. reflexivity. Qed.

Example login_stores_cookie : getSessionCookies Demo.loggedInA = Some "SID=abc123".
Proof. reflexivity. Qed.

Example login_attaches_cookie :
  (client Demo.loggedInA ≫= fun c => httpHeaders c !! "Cookie") = Some "SID=abc123".
Proof. reflexivity. Qed.

(** Same domain, other service: the cookie is handed to the construction. *)
Example preload_same_domain :
  wsdlHeadersFor Demo.domainA ∅ Demo.loggedInA !! "Cookie" = Some "SID=abc123".
Proof. reflexivity. Qed.

(** Another domain: no cookie of the first one is visible there. *)
Example no_leak_across_domains :
  let st := perform (CallConnect Demo.platform Demo.otherWsdl ∅) Demo.loggedInA in
  currentDomain st = Some "b.example.org" /\ getSessionCookies st = None
  /\ LogSwitching "a.example.com" "b.example.org" ∈ console st.
Proof.
  repeat split; try reflexivity.
  vm_compute. repeat (first [apply list_elem_of_here | apply list_elem_of_further]).
Qed.

Example manual_injection :
  listAllCookies (perform (CallAddCookies "c.example.net" "X=1; Y=2") newSOAPClient)
    !! "c.example.net" = Some ["X=1"; "Y=2"].
Proof. reflexivity. Qed.

(** Of several cookies in one response only the last is stored: every
    turn of the loop filters the collection read before the loop. *)
Example several_cookies_last_wins :
  collection Demo.domainA
    (perform (CallProcessCookies (HArr ["A=1"; "B=2"]) Demo.domainA) newSOAPClient)
  = ["B=2"].
Proof. reflexivity. Qed.

(** An empty [set-cookie] array for a domain without cookies makes the
    attempt throw; the store stays as it was. *)
Example empty_array_throws :
  snd (processCookies (HArr []) Demo.domainA Demo.connectedA) = Throw joinOfUndefined.
Proof. reflexivity. Qed.

End Scenarios.

(** * The claims about the merge *)

Section MergeClaims.

Lemma merge_store (st : SOAPClient) (d c : string) :
  sessionCookies (merge c d st)
  = <[d := mergedInto (collection d st) c]> (sessionCookies st).
Proof. unfold merge. rewrite processCookies_store. reflexivity. Qed.

Lemma merge_collection (st : SOAPClient) (d c : string) :
  collection d (merge c d st) = mergedInto (collection d st) c.
Proof.
  unfold collection at 1. rewrite merge_store, lookup_insert_eq. reflexivity.
Qed.

Lemma storeOnePerName_new : storeOnePerName newSOAPClient.
Proof. intros d l H. simpl in H. rewrite lookup_empty in H. discriminate. Qed.

(** An array with one cookie is merged like the cookie alone. *)
Lemma processCookies_one_element (cookie domain : string) (st : SOAPClient) :
  processCookies (HArr [cookie]) domain st = processCookies (HStr cookie) domain st.
Proof. reflexivity. Qed.

(** C1, as stated, fails. With [foo] stored and [foo] arriving again the
    name is [foo] both times, yet the stored entry stays and the
    collection renders as [foo; foo]: by the name of the entry there are two
    such entries afterwards, by the source's test (the entry starts with the
    name and [=]) there is none. After [addCookiesForDomain] has stored
    [A=1] and [A=2], merging [B=3] leaves both of them: two entries for the
    name [A], whichever way names are read. And with [foo] stored, the
    cookie [foo=1] is appended next to it: two entries named [foo]. *)
Lemma merge_not_one_entry_per_name :
  collection Demo.domainA (merge "foo" Demo.domainA Demo.fooOnce) = ["foo"; "foo"]
  /\ ~ mergeAsExpected namedAs Demo.fooOnce Demo.domainA "foo"
  /\ ~ mergeAsExpected entryFor Demo.fooOnce Demo.domainA "foo"
  /\ collection Demo.domainA (merge "B=3" Demo.domainA Demo.injected) = ["A=1"; "A=2"; "B=3"]
  /\ ~ mergeAsExpected namedAs Demo.injected Demo.domainA "B=3"
  /\ ~ mergeAsExpected entryFor Demo.injected Demo.domainA "B=3"
  /\ collection Demo.domainA (merge "foo=1" Demo.domainA Demo.fooOnce) = ["foo"; "foo=1"]
  /\ ~ mergeAsExpected namedAs Demo.fooOnce Demo.domainA "foo=1".
Proof.
  assert ("foo" ∈ collection Demo.domainA (merge "foo" Demo.domainA Demo.fooOnce)) as Hfoo
    by (vm_compute; apply list_elem_of_here).
  assert ("A=1" ∈ collection Demo.domainA (merge "B=3" Demo.domainA Demo.injected)) as HA
    by (vm_compute; apply list_elem_of_here).
  assert ("foo" ∈ collection Demo.domainA (merge "foo=1" Demo.domainA Demo.fooOnce)) as Hfoo1
    by (vm_compute; apply list_elem_of_here).
  repeat split; try reflexivity.
  - intros [_ H]. specialize (H _ Hfoo). vm_compute in H. discriminate.
  - intros [_ H]. specialize (H _ Hfoo). vm_compute in H. discriminate.
  - intros [_ H]. specialize (H _ HA). vm_compute in H. discriminate.
  - intros [_ H]. specialize (H _ HA). vm_compute in H. discriminate.
  - intros [_ H]. specialize (H _ Hfoo1). vm_compute in H. discriminate.
Qed.

(** C1, amended. Take a raw cookie string whose text before the first
    [;] has the form name=value, and a domain whose stored entries all have
    that form, no two of them with the same name (the name being the text
    before the first [=]). [processCookies] removes the stored entry with
    the cookie's name, if there is one, and appends the cookie without its
    attributes at the end; the collections of other domains are left
    alone. Afterwards the collection holds exactly one entry for the name
    of each of its entries, the merged cookie in last place, and its
    entries again have the form name=value with distinct names. *)
Theorem processCookies_merges_one_cookie (st : SOAPClient) (d c : string) :
  isNameValue c = true ->
  allNameValue (collection d st) ->
  distinctNames (collection d st) ->
  let new := collection d (merge c d st) in
  mergeAsExpected namedAs st d c
  /\ last new = Some (firstField ";" c)
  /\ sessionCookies (merge c d st) = <[d := new]> (sessionCookies st)
  /\ allNameValue new
  /\ distinctNames new.
Proof.
  intros Hnv Hform Hnames. cbv zeta.
  pose proof (distinctNames_merged _ c Hform Hnames) as Hnew.
  unfold mergeAsExpected. cbv zeta. rewrite merge_collection.
  split; [split|split; [|split; [|split]]].
  - apply mergedInto_by_name, Hform.
  - intros e He. apply distinctNames_exactly_one; assumption.
  - unfold mergedInto. apply last_snoc.
  - apply merge_store.
  - apply allNameValue_merged; assumption.
  - exact Hnew.
Qed.

(** The session cookie [SID=abc123] of the login is replaced by
    [SID=9]. *)
Lemma processCookies_merges_one_cookie_witness :
  isNameValue "SID=9; HttpOnly" = true
  /\ allNameValue (collection Demo.domainA Demo.loggedInA)
  /\ distinctNames (collection Demo.domainA Demo.loggedInA)
  /\ mergeAsExpected namedAs Demo.loggedInA Demo.domainA "SID=9; HttpOnly"
  /\ collection Demo.domainA (merge "SID=9; HttpOnly" Demo.domainA Demo.loggedInA)
     = ["SID=9"].
Proof.
  assert (allNameValue (collection Demo.domainA Demo.loggedInA)) as Hform
    by (repeat constructor).
  assert (distinctNames (collection Demo.domainA Demo.loggedInA)) as Hnames.
  { intros n.
    exact (length_filter (fun e => Is_true (namedAs n e)) ["SID=abc123"]). }
  split; [reflexivity|]. split; [exact Hform|]. split; [exact Hnames|].
  split; [|reflexivity].
  exact (proj1 (processCookies_merges_one_cookie Demo.loggedInA Demo.domainA
                  "SID=9; HttpOnly" eq_refl Hform Hnames)).
Defined.

(** C2, as stated, fails: [addCookiesForDomain] stores the caller's
    entries as they come, so a cookie string that repeats a name leaves
    two entries for it. *)
Lemma addCookies_repeated_name :
  storeOnePerName newSOAPClient
  /\ ~ storeOnePerName (perform (CallAddCookies "c.example.net" "A=1; A=2") newSOAPClient).
Proof.
  split; [apply storeOnePerName_new|].
  intros H. specialize (H "c.example.net" ["A=1"; "A=2"] eq_refl "A").
  vm_compute in H. lia.
Qed.

(** C2, amended. "At most one entry per cookie name in every domain" is
    kept by every call on an instance (connect, authenticate,
    executeMethod, extraction, [processCookies], [applyCookiesForDomain],
    [clearSessionCookies]) and by [addCookiesForDomain] when the cookie
    string it is given has at most one entry per name itself. *)
Theorem store_one_per_name_kept (c : Call) (st : SOAPClient) :
  suppliesOnly onePerName c ->
  storeOnePerName st ->
  storeOnePerName (perform c st).
Proof. apply perform_storeAll, mergeClosed_onePerName. Qed.

Lemma store_one_per_name_kept_witness :
  storeOnePerName (perform (CallAddCookies "c.example.net" "X=1; Y=2") newSOAPClient).
Proof.
  apply store_one_per_name_kept.
  - change (onePerName (mergedInto ["X=1"] "Y=2")).
    apply onePerName_merged, onePerName_singleton.
  - apply storeOnePerName_new.
Defined.

(** C9. Merging the same name=value cookie a second time, whatever was
    merged in between, leaves exactly one entry for the name, the cookie
    itself, in last place; with nothing in between the collection is the
    one after the first merge. The position is not kept: some merge in
    between leaves the cookie first, and the second merge moves it behind
    the entry that was not touched. *)
Theorem merge_twice_one_entry :
  (forall (st : SOAPClient) (d c : string) (between : list string),
     isNameValue c = true ->
     let once := merge c d st in
     let later := fold_left (fun s other => merge other d s) between once in
     let twice := merge c d later in
     entriesFor (cookieNameOf c) (collection d twice) = [cookiePartOf c]
     /\ last (collection d twice) = Some (cookiePartOf c)
     /\ (between = [] -> collection d twice = collection d once))
  /\ (exists (st : SOAPClient) (d c other : string),
        isNameValue c = true
        /\ collection d (merge other d (merge c d st)) = [cookiePartOf c; cookiePartOf other]
        /\ collection d (merge c d (merge other d (merge c d st)))
           = [cookiePartOf other; cookiePartOf c]).
Proof.
  split.
  - intros st d c between Hnv. cbv zeta. rewrite merge_collection.
    split; [|split].
    + rewrite entriesFor_merged, Hnv. reflexivity.
    + unfold mergedInto. apply last_snoc.
    + intros ->. simpl. rewrite ?merge_collection.
      apply mergedInto_again, Hnv.
  - exists newSOAPClient, Demo.domainA, "SID=1", "T=2".
    repeat split; reflexivity.
Qed.

Lemma merge_twice_one_entry_witness :
  entriesFor "SID"
    (collection Demo.domainA
       (merge "SID=1; Path=/" Demo.domainA
          (merge "T=2" Demo.domainA (merge "SID=1; Path=/" Demo.domainA newSOAPClient))))
  = ["SID=1"].
Proof.
  destruct merge_twice_one_entry as [H _].
  exact (proj1 (H newSOAPClient Demo.domainA "SID=1; Path=/" ["T=2"] eq_refl)).
Defined.

End MergeClaims.

(** * The claims about extraction and [executeMethod] *)

Section CallClaims.

Context {A : Type}.

Lemma executeMethod_done (methodName : string) (res : CallResult A)
    (recorded : option (gmap string HeaderValue)) (st : SOAPClient) (c : Client) :
  client st = Some c ->
  executeMethod methodName (RpcDone res recorded) st
  = (extractCookiesFromMultipleSources res
       (setClient (Some (recordHeaders recorded c)) st),
     Return (result res)).
Proof. intros H. unfold executeMethod. rewrite H. reflexivity. Qed.

(** C3, amended. After a successful call [executeMethod] runs
    [applyCookiesForDomain] once when a domain is in use and one of the
    extraction strategies yields a [set-cookie] value (the run inside
    [processCookies]), and not at all when nothing is found. *)
Theorem executeMethod_reapplies_on_yield_only (methodName : string)
    (res : CallResult A) (recorded : option (gmap string HeaderValue))
    (st : SOAPClient) (c : Client) :
  client st = Some c ->
  let st1 := setClient (Some (recordHeaders recorded c)) st in
  applications st (fst (executeMethod methodName (RpcDone res recorded) st))
  = match domainInUse st, firstYield strategies res st1 with
    | Some _, Some _ => 1
    | _, _ => 0
    end.
Proof.
  intros H. cbv zeta. rewrite (executeMethod_done _ _ _ _ _ H). simpl.
  exact (extract_applications res (setClient (Some (recordHeaders recorded c)) st)).
Qed.

(** C10. A successful call returns its result whatever extraction meets:
    an error thrown inside the extraction attempt ends in a console line,
    not in the caller, and without a domain in use extraction returns the
    instance as it is. *)
Theorem extraction_never_raises (methodName : string) (res : CallResult A)
    (recorded : option (gmap string HeaderValue)) (st : SOAPClient) :
  (forall c, client st = Some c ->
     snd (executeMethod methodName (RpcDone res recorded) st) = Return (result res))
  /\ (domainInUse st = None -> extractCookiesFromMultipleSources res st = st)
  /\ (forall d st' e,
        domainInUse st = Some d ->
        extractionAttempt res d st = (st', Throw e) ->
        extractCookiesFromMultipleSources res st
        = log (LogExtractionError (message e)) st').
Proof.
  split; [|split].
  - intros c H. rewrite (executeMethod_done _ _ _ _ _ H). reflexivity.
  - intros H. unfold extractCookiesFromMultipleSources. rewrite H. reflexivity.
  - intros d st' e Hd Ha. unfold extractCookiesFromMultipleSources.
    rewrite Hd, Ha. reflexivity.
Qed.

(** C6. Without a client [executeMethod] throws "Not connected to any
    service" and touches nothing. With a client and a failing call it
    writes the method name and the error's message to the console and
    throws the same error; the cookie store, the attached headers and the
    domain are as before, and [applyCookiesForDomain] does not run. *)
Theorem executeMethod_failures (methodName : string) (reply : RpcReply A)
    (st : SOAPClient) :
  (client st = None -> executeMethod methodName reply st = (st, Throw notConnected))
  /\ (forall c err recorded,
        client st = Some c ->
        reply = RpcFailed err recorded ->
        let st' := fst (executeMethod methodName reply st) in
        snd (executeMethod methodName reply st) = Throw err
        /\ sessionCookies st' = sessionCookies st
        /\ currentDomain st' = currentDomain st
        /\ option_map httpHeaders (client st') = Some (httpHeaders c)
        /\ console st' = (console st ++ [ErrExecute methodName (message err)])%list).
Proof.
  split.
  - intros H. unfold executeMethod. rewrite H. reflexivity.
  - intros c err recorded H ->. unfold executeMethod. rewrite H. simpl. auto.
Qed.

End CallClaims.

Section CallClaimsAtWork.

(** C3, as stated, fails: a call whose response carries no cookie leaves
    [applyCookiesForDomain] alone although a cookie is stored for the
    domain: the only event of the call is "no cookies found". *)
Lemma executeMethod_without_cookies_no_reapply :
  getSessionCookies Demo.loggedInA = Some "SID=abc123"
  /\ snd (executeMethod "GetData" Demo.plainReply Demo.loggedInA) = Return "data"
  /\ ~ reapplied Demo.loggedInA
         (fst (executeMethod "GetData" Demo.plainReply Demo.loggedInA)).
Proof.
  split; [reflexivity|]. split; [reflexivity|].
  intros (e & Hin & Happ). vm_compute in Hin.
  apply list_elem_of_singleton in Hin. subst e. exact Happ.
Qed.

(** What the missing run would have changed: after a cookie
    authentication the header holds the authentication cookie; the next
    call without cookies leaves it there, where a run of
    [applyCookiesForDomain] would have put the stored cookie back. *)
Example stale_header_survives_call :
  let st := perform (CallAuthenticate "cookie" (Return (Some (HArr ["T=1; Path=/"]))))
              Demo.loggedInA in
  let st' := fst (executeMethod "GetData" Demo.plainReply st) in
  (client st' ≫= fun c => httpHeaders c !! "Cookie") = Some "T=1"
  /\ (client (applyCookiesForDomain Demo.domainA st') ≫= fun c => httpHeaders c !! "Cookie")
     = Some "SID=abc123".
Proof. split; reflexivity. Qed.

Lemma executeMethod_reapplies_on_yield_only_witness :
  applications Demo.loggedInA
    (fst (executeMethod "GetData" Demo.plainReply Demo.loggedInA)) = 0
  /\ applications Demo.connectedA
       (fst (executeMethod "Login" Demo.loginReply Demo.connectedA)) = 1.
Proof.
  split.
  - exact (executeMethod_reapplies_on_yield_only "GetData"
             {| result := "data"; raw := RawUndefined |} None Demo.loggedInA
             {| httpHeaders := {[ "Cookie" := "SID=abc123" ]};
                lastResponseHeaders := Demo.setCookieHeaders (HArr ["SID=abc123; Path=/"]) |}
             eq_refl).
  - exact (executeMethod_reapplies_on_yield_only "Login"
             {| result := "welcome"; raw := RawUndefined |}
             (Demo.setCookieHeaders (HArr ["SID=abc123; Path=/"])) Demo.connectedA
             Demo.freshClient eq_refl).
Defined.

(** An empty [set-cookie] array makes the attempt throw; the call returns
    its result all the same. *)
Lemma extraction_never_raises_witness :
  let reply := Demo.answer "ok" (Demo.setCookieHeaders (HArr [])) RawUndefined in
  snd (executeMethod "Login" reply Demo.connectedA) = Return "ok"
  /\ LogExtractionError (message joinOfUndefined)
     ∈ console (fst (executeMethod "Login" reply Demo.connectedA)).
Proof.
  cbv zeta. split.
  - exact (proj1 (extraction_never_raises "Login"
                    {| result := "ok"; raw := RawUndefined |}
                    (Demo.setCookieHeaders (HArr [])) Demo.connectedA)
             Demo.freshClient eq_refl).
  - vm_compute. repeat (first [apply list_elem_of_here | apply list_elem_of_further]).
Defined.

Lemma executeMethod_failures_witness :
  executeMethod "GetData" Demo.plainReply newSOAPClient
  = (newSOAPClient, Throw notConnected)
  /\ snd (executeMethod "GetData"
            (RpcFailed {| message := "soap:Server" |} None : RpcReply string)
            Demo.loggedInA)
     = Throw {| message := "soap:Server" |}.
Proof.
  split.
  - exact (proj1 (executeMethod_failures "GetData" Demo.plainReply newSOAPClient) eq_refl).
  - exact (proj1 (proj2 (executeMethod_failures "GetData"
                           (RpcFailed {| message := "soap:Server" |} None)
                           Demo.loggedInA)
                    {| httpHeaders := {[ "Cookie" := "SID=abc123" ]};
                       lastResponseHeaders :=
                         Demo.setCookieHeaders (HArr ["SID=abc123; Path=/"]) |}
                    {| message := "soap:Server" |} None eq_refl eq_refl)).
Defined.

End CallClaimsAtWork.

(** * The claims about the connection and its cookie header *)

Section ConnectionClaims.

(** C5, as stated, fails twice over. A first [connect] whose construction
    fails leaves no client, but it has overwritten [wsdlUrl] with the URL
    that failed; and after a failed re-connect the instance still holds the
    client of the earlier connection. In both cases [connect] returns
    [false] instead of raising. *)
Lemma failed_connect_not_as_drawn :
  connect Demo.offline Demo.otherWsdl ∅ newSOAPClient
  = ({| client := None; authCookie := None; wsdlUrl := Some Demo.otherWsdl;
        serviceUrl := None; sessionCookies := ∅; currentDomain := None;
        console := [ErrConnect "connect ECONNREFUSED"] |}, false)
  /\ ~ failedConnectAsDrawn Demo.offline Demo.otherWsdl ∅ newSOAPClient
  /\ ~ failedConnectAsDrawn Demo.offline Demo.otherWsdl ∅ Demo.connectedA.
Proof.
  split; [reflexivity|]. split.
  - intros (_ & _ & _ & H & _). vm_compute in H. discriminate.
  - intros (H & _). vm_compute in H. discriminate.
Qed.

(** C5, amended. When [soap.createClientAsync] rejects, [connect] writes
    the error's message to the console and returns [false]; it does not
    raise. The client, the service URL, the current domain, the cookie
    store and [authCookie] are those before the attempt, so an instance
    without a client stays without one and a connected one keeps its
    earlier client; [wsdlUrl] holds the URL of the attempt. *)
Theorem connect_construction_failure (env : Platform) (url : string)
    (options : gmap string string) (st : SOAPClient) (td : string) (err : JsError) :
  hostname env (Some url) = Return td ->
  createClientAsync env url (wsdlHeadersFor td options st) = CreateRejected err ->
  let st' := fst (connect env url options st) in
  snd (connect env url options st) = false
  /\ client st' = client st
  /\ serviceUrl st' = serviceUrl st
  /\ currentDomain st' = currentDomain st
  /\ sessionCookies st' = sessionCookies st
  /\ authCookie st' = authCookie st
  /\ wsdlUrl st' = Some url
  /\ last (console st') = Some (ErrConnect (message err)).
Proof.
  intros Hh Hc. unfold wsdlHeadersFor in Hc.
  unfold connect, connectAttempt, bind, modify, completed, throw, ret. simpl.
  rewrite Hh. simpl.
  destruct (sessionCookies st !! td) as [[|x l]|]; simpl in *; rewrite Hc; simpl;
    repeat split; apply last_snoc.
Qed.

Lemma connect_construction_failure_witness :
  snd (connect Demo.offline Demo.otherWsdl ∅ Demo.loggedInA) = false
  /\ client (fst (connect Demo.offline Demo.otherWsdl ∅ Demo.loggedInA))
     = client Demo.loggedInA.
Proof.
  destruct (connect_construction_failure Demo.offline Demo.otherWsdl ∅ Demo.loggedInA
              "b.example.org" {| message := "connect ECONNREFUSED" |}
              eq_refl eq_refl) as (H1 & H2 & _).
  exact (conj H1 H2).
Defined.

(** C7. For a domain without stored cookies (no collection, or an empty
    one) [applyCookiesForDomain] leaves the client, with whatever Cookie
    header it carries, and [authCookie] as they are. With a client, a
    domain and stored cookies it clears the Cookie header and attaches
    the rendered collection. *)
Theorem apply_without_cookies_keeps_header (d : string) (st : SOAPClient) :
  (sessionCookies st !! d = None \/ sessionCookies st !! d = Some [] ->
     client (applyCookiesForDomain d st) = client st
     /\ authCookie (applyCookiesForDomain d st) = authCookie st)
  /\ (forall c x l,
        client st = Some c -> truthy d = true ->
        sessionCookies st !! d = Some (x :: l) ->
        option_map httpHeaders (client (applyCookiesForDomain d st))
        = Some (<["Cookie" := join "; " (x :: l)]> (delete "Cookie" (httpHeaders c)))).
Proof.
  unfold applyCookiesForDomain. split.
  - intros H. destruct (client st) as [c|] eqn:E; [|simpl; auto].
    destruct (negb (truthy d)); [simpl; auto|].
    destruct H as [-> | ->]; simpl; auto.
  - intros c x l -> -> ->. simpl. f_equal.
    destruct (httpHeaders c !! "Cookie") as [v|] eqn:E; [destruct (truthy v)|];
      simpl; rewrite ?insert_delete_eq; reflexivity.
Qed.

(** The cookie is attached, the domain's cookies are cleared, and
    applying again leaves the header in place. *)
Lemma apply_without_cookies_keeps_header_witness :
  let st := clearSessionCookies None Demo.loggedInA in
  sessionCookies st !! Demo.domainA = None
  /\ (client (applyCookiesForDomain Demo.domainA st) ≫= fun c => httpHeaders c !! "Cookie")
     = Some "SID=abc123".
Proof.
  cbv zeta. split; [reflexivity|].
  destruct (apply_without_cookies_keeps_header Demo.domainA
              (clearSessionCookies None Demo.loggedInA)) as [H _].
  destruct (H (or_introl eq_refl)) as [-> _]. reflexivity.
Defined.

(** C8, as stated, fails: the rendering can be the empty text. On a
    connected instance [addCookiesForDomain] with a cookie string of one
    space stores the single entry that is left after trimming, the empty
    one, and a response header [set-cookie: ; Path=/] stores the empty text
    before its first [;]. Either way the collection of the current domain
    is not empty, [getSessionCookies] answers the empty string, and that
    string is attached as the Cookie header. *)
Lemma getSessionCookies_empty_text :
  let byHand := perform (CallAddCookies Demo.domainA " ") Demo.connectedA in
  let reply := Demo.answer "ok" (Demo.setCookieHeaders (HArr ["; Path=/"])) RawUndefined in
  let byHeader := perform (CallExecuteMethod "Login" reply) Demo.connectedA in
  reachable byHand
  /\ collection Demo.domainA byHand = [EmptyString]
  /\ getSessionCookies byHand = Some EmptyString
  /\ cookieHeader byHand = Some EmptyString
  /\ ~ rendersAsClaimed byHand
  /\ reachable byHeader
  /\ collection Demo.domainA byHeader = [EmptyString]
  /\ getSessionCookies byHeader = Some EmptyString
  /\ ~ rendersAsClaimed byHeader.
Proof.
  cbv zeta. repeat split; try reflexivity.
  - repeat apply reachable_call. apply reachable_new.
  - intros [_ H]. apply H. reflexivity.
  - repeat apply reachable_call. apply reachable_new.
  - intros [_ H]. apply H. reflexivity.
Qed.

(** C8, amended. In every state an instance can reach, [getSessionCookies]
    joins the entries of the current domain's collection with "; " in
    their order. Without a domain in use, or without a collection for it,
    the answer is [null]; a stored collection is never empty. The answer
    is the empty string exactly when the collection is the single empty
    entry; for every other collection it is a non-empty string. *)
Theorem getSessionCookies_renders (st : SOAPClient) :
  reachable st ->
  (domainInUse st = None -> getSessionCookies st = None)
  /\ forall d, domainInUse st = Some d ->
       (collection d st = [] -> getSessionCookies st = None)
       /\ (forall cookies, sessionCookies st !! d = Some cookies ->
             cookies <> [] /\ getSessionCookies st = Some (join "; " cookies))
       /\ (getSessionCookies st = Some EmptyString <-> collection d st = [EmptyString]).
Proof.
  intros Hr. pose proof (reachable_nonempty st Hr) as Hne.
  unfold getSessionCookies, collection. split.
  - intros ->. reflexivity.
  - intros d ->. split; [|split].
    + destruct (sessionCookies st !! d) as [l|] eqn:E; [|reflexivity].
      simpl. intros ->. exfalso. exact (Hne d [] E eq_refl).
    + intros cookies E. rewrite E. split; [exact (Hne d cookies E)|reflexivity].
    + destruct (sessionCookies st !! d) as [l|] eqn:E; simpl.
      * pose proof (Hne d l E) as Hl.
        pose proof (join_empty "; " l) as Hj.
        split.
        -- intros [= H]. apply Hj in H; [|discriminate].
           destruct H as [H|H]; [contradiction|exact H].
        -- intros ->. reflexivity.
      * split; discriminate.
Qed.

(** One entry, no collection, two entries, and the single empty entry. *)
Lemma getSessionCookies_renders_witness :
  let two := perform (CallAddCookies Demo.domainA "A=1; B=2") Demo.connectedA in
  let blank := perform (CallAddCookies Demo.domainA " ") Demo.connectedA in
  getSessionCookies Demo.loggedInA = Some "SID=abc123"
  /\ getSessionCookies Demo.connectedA = None
  /\ getSessionCookies two = Some "A=1; B=2"
  /\ getSessionCookies blank = Some EmptyString.
Proof.
  cbv zeta. split; [|split; [|split]].
  - refine (proj2 (proj1 (proj2 (proj2 (getSessionCookies_renders Demo.loggedInA _)
                                     Demo.domainA eq_refl))
                     ["SID=abc123"] eq_refl)).
    repeat apply reachable_call. apply reachable_new.
  - refine (proj1 (proj2 (getSessionCookies_renders Demo.connectedA _) Demo.domainA eq_refl)
              eq_refl).
    repeat apply reachable_call. apply reachable_new.
  - refine (proj2 (proj1 (proj2 (proj2 (getSessionCookies_renders
                                            (perform (CallAddCookies Demo.domainA "A=1; B=2")
                                               Demo.connectedA) _)
                                     Demo.domainA eq_refl))
                     ["A=1"; "B=2"] eq_refl)).
    repeat apply reachable_call. apply reachable_new.
  - refine (proj2 (proj2 (proj2 (proj2 (getSessionCookies_renders
                                            (perform (CallAddCookies Demo.domainA " ")
                                               Demo.connectedA) _)
                                     Demo.domainA eq_refl)))
              eq_refl).
    repeat apply reachable_call. apply reachable_new.
Defined.

End ConnectionClaims.

(** * Further properties: [connect] *)

Section ConnectFacts.

#[local] Arguments applyCookiesForDomain : simpl never.

(** The Cookie header after [applyCookiesForDomain], on a connected instance. *)
Lemma apply_cookieHeader (d : string) (st : SOAPClient) (c : Client) :
  client st = Some c ->
  cookieHeader (applyCookiesForDomain d st)
  = if truthy d then
      match sessionCookies st !! d with
      | Some (x :: l) => Some (join "; " (x :: l))
      | _ => httpHeaders c !! "Cookie"
      end
    else httpHeaders c !! "Cookie".
Proof.
  intros Hc. unfold applyCookiesForDomain, cookieHeader. rewrite Hc.
  destruct (truthy d); simpl; [|rewrite Hc; reflexivity].
  destruct (sessionCookies st !! d) as [[|x l]|]; simpl; rewrite ?Hc; try reflexivity.
  apply lookup_insert_eq.
Qed.

(** What [connect] does once the platform has answered each of its three
    questions. *)
Lemma connect_resolved (env : Platform) (url : string) (options : gmap string string)
    (st : SOAPClient) (td : string) (c : Client) (loc : option string) (sd : string) :
  hostname env (Some url) = Return td ->
  createClientAsync env url (wsdlHeadersFor td options st)
    = CreateResolved c (Return loc) ->
  hostname env loc = Return sd ->
  exists pre,
    (console pre = console st \/ exists e, console pre = (console st ++ [e])%list)
    /\ client pre = Some c /\ authCookie pre = authCookie st
    /\ wsdlUrl pre = Some url /\ serviceUrl pre = loc
    /\ sessionCookies pre = sessionCookies st /\ currentDomain pre = currentDomain st
    /\ connect env url options st
       = (applyCookiesForDomain sd
            (setCurrentDomain (Some sd)
               (match domainInUse st with
                | Some old =>
                    if String.eqb old sd
                    then log (LogConnected (default "undefined" loc) sd) pre
                    else log (LogSwitching old sd)
                           (log (LogConnected (default "undefined" loc) sd) pre)
                | None => log (LogConnected (default "undefined" loc) sd) pre
                end)), true).
Proof.
  intros Hh Hc Hs. unfold wsdlHeadersFor in Hc.
  unfold connect, connectAttempt, bind, modify, completed, throw, ret. simpl.
  rewrite Hh. simpl.
  destruct (sessionCookies st !! td) as [[|x l]|]; simpl in *; rewrite Hc; simpl;
    rewrite Hs; simpl; unfold domainInUse; simpl;
    (destruct (currentDomain st) as [old|]; simpl;
     [destruct (truthy old); simpl; [destruct (String.eqb old sd); simpl|]|]);
    eexists {| client := Some c; authCookie := authCookie st; wsdlUrl := Some url;
               serviceUrl := loc; sessionCookies := sessionCookies st;
               currentDomain := _; console := _ |};
    simpl; (split; [|repeat split; reflexivity]);
    first [left; reflexivity | right; eexists; reflexivity].
Qed.

(** X1. [connect] never writes to the cookie store: whatever the platform
    answers, and whether it returns [true] or [false], every domain holds
    the collection it held before. *)
Theorem connect_never_writes_store (env : Platform) (url : string)
    (options : gmap string string) (st : SOAPClient) (d : string) :
  sessionCookies (fst (connect env url options st)) !! d = sessionCookies st !! d.
Proof. rewrite connect_store. reflexivity. Qed.

Lemma connect_resolved_fields (env : Platform) (url : string)
    (options : gmap string string) (st : SOAPClient) (td : string)
    (c : Client) (loc : option string) (sd : string) :
  hostname env (Some url) = Return td ->
  createClientAsync env url (wsdlHeadersFor td options st)
    = CreateResolved c (Return loc) ->
  hostname env loc = Return sd ->
  let st' := fst (connect env url options st) in
  snd (connect env url options st) = true
  /\ currentDomain st' = Some sd
  /\ serviceUrl st' = loc
  /\ wsdlUrl st' = Some url
  /\ cookieHeader st'
     = if truthy sd then
         match sessionCookies st !! sd with
         | Some (x :: l) => Some (join "; " (x :: l))
         | _ => httpHeaders c !! "Cookie"
         end
       else httpHeaders c !! "Cookie".
Proof.
  intros Hh Hc Hs.
  destruct (connect_resolved env url options st td c loc sd Hh Hc Hs)
    as (pre & _ & Hcl & _ & Hw & Hsv & Hst & _ & ->).
  cbv zeta. simpl fst. simpl snd.
  set (inner := setCurrentDomain (Some sd) _).
  assert (client inner = Some c /\ sessionCookies inner = sessionCookies st
          /\ currentDomain inner = Some sd /\ serviceUrl inner = loc
          /\ wsdlUrl inner = Some url) as (H1 & H2 & H3 & H4 & H5).
  { subst inner. destruct (domainInUse st) as [old|];
      [destruct (String.eqb old sd)|]; simpl; auto. }
  destruct (apply_frame sd inner) as (_ & G1 & G2 & G3).
  rewrite G1, G2, G3, (apply_cookieHeader sd inner c H1), H2. auto.
Qed.

(** X2. When the construction succeeds and the location of the service
    parses, [connect] returns [true] and the host of the service location,
    not the host of the WSDL URL, becomes the current domain. If cookies
    are stored for that host they are the Cookie header of the new client;
    otherwise the new client keeps the header it came with. *)
Theorem connect_installs_service_domain (env : Platform) (url : string)
    (options : gmap string string) (st : SOAPClient) (td : string)
    (c : Client) (loc sd : string) :
  hostname env (Some url) = Return td ->
  createClientAsync env url (wsdlHeadersFor td options st)
    = CreateResolved c (Return (Some loc)) ->
  hostname env (Some loc) = Return sd ->
  let st' := fst (connect env url options st) in
  snd (connect env url options st) = true
  /\ currentDomain st' = Some sd
  /\ serviceUrl st' = Some loc
  /\ wsdlUrl st' = Some url
  /\ cookieHeader st'
     = if truthy sd then
         match sessionCookies st !! sd with
         | Some (x :: l) => Some (join "; " (x :: l))
         | _ => httpHeaders c !! "Cookie"
         end
       else httpHeaders c !! "Cookie".
Proof. apply connect_resolved_fields. Qed.

(** Disconnected and connected again to another service of the same
    host: the stored cookie is on the new client before any call. *)
Lemma connect_installs_service_domain_witness :
  let st := fst (connect Demo.platform "http://a.example.com:8080/Data.svc?wsdl" ∅
                   (Wrapper.disconnect Demo.loggedInA)) in
  currentDomain st = Some "a.example.com" /\ cookieHeader st = Some "SID=abc123".
Proof.
  cbv zeta.
  destruct (connect_installs_service_domain Demo.platform
              "http://a.example.com:8080/Data.svc?wsdl" ∅
              (Wrapper.disconnect Demo.loggedInA) "a.example.com" Demo.freshClient
              "http://a.example.com:8080/Data.svc?wsdl" "a.example.com"
              eq_refl eq_refl eq_refl) as (_ & H & _ & _ & Hh).
  exact (conj H Hh).
Defined.

(** X3. A [connect] that fails after the construction has succeeded
    (reading the service location throws, or the location is no URL)
    returns [false] but has already installed the new client: the instance
    is connected to the new service while the current domain and the
    cookie store are those of before. *)
Theorem connect_fails_after_construction (env : Platform) (url : string)
    (options : gmap string string) (st : SOAPClient) (td : string)
    (c : Client) (location : Completion (option string)) :
  hostname env (Some url) = Return td ->
  createClientAsync env url (wsdlHeadersFor td options st) = CreateResolved c location ->
  (exists e, location = Throw e)
  \/ (exists loc e, location = Return loc /\ hostname env loc = Throw e) ->
  let st' := fst (connect env url options st) in
  snd (connect env url options st) = false
  /\ client st' = Some c
  /\ currentDomain st' = currentDomain st
  /\ sessionCookies st' = sessionCookies st.
Proof.
  intros Hh Hc Hl. unfold wsdlHeadersFor in Hc.
  unfold connect, connectAttempt, bind, modify, completed, throw, ret. simpl.
  rewrite Hh. simpl.
  destruct Hl as [(e & ->)|(loc & e & -> & Hs)];
    destruct (sessionCookies st !! td) as [[|x l]|]; simpl in *; rewrite Hc; simpl;
    rewrite ?Hs; simpl; auto.
Qed.

Lemma connect_fails_after_construction_witness :
  let env := {| hostname := Demo.hostOf;
                createClientAsync := fun _ _ =>
                  CreateResolved Demo.freshClient (Return (Some "/services/Other.svc")) |} in
  let st' := fst (connect env Demo.otherWsdl ∅ Demo.loggedInA) in
  snd (connect env Demo.otherWsdl ∅ Demo.loggedInA) = false
  /\ client st' = Some Demo.freshClient
  /\ currentDomain st' = Some "a.example.com".
Proof.
  cbv zeta.
  destruct (connect_fails_after_construction
              {| hostname := Demo.hostOf;
                 createClientAsync := fun _ _ =>
                   CreateResolved Demo.freshClient (Return (Some "/services/Other.svc")) |}
              Demo.otherWsdl ∅ Demo.loggedInA "b.example.org" Demo.freshClient
              (Return (Some "/services/Other.svc")) eq_refl eq_refl
              (or_intror (ex_intro _ (Some "/services/Other.svc")
                 (ex_intro _ {| message := "Invalid URL" |} (conj eq_refl eq_refl)))))
    as (H1 & H2 & H3 & _).
  exact (conj H1 (conj H2 H3)).
Defined.

(** X4. [connect] puts one question to [soap.createClientAsync]: the WSDL
    URL with the caller's [wsdl_headers], to which the rendered cookies of
    the WSDL host are added as Cookie unless the caller has set a Cookie
    header, which then wins. Two platforms that parse URLs alike and
    answer that question alike lead to the same instance and result. *)
Theorem connect_asks_with_preload (env env' : Platform) (url : string)
    (options : gmap string string) (st : SOAPClient) :
  (forall td,
     wsdlHeadersFor td options st !! "Cookie"
     = match options !! "Cookie" with
       | Some v => Some v
       | None =>
           match sessionCookies st !! td with
           | Some (x :: l) => Some (join "; " (x :: l))
           | _ => None
           end
       end)
  /\ ((forall u, hostname env u = hostname env' u) ->
      (forall td, hostname env (Some url) = Return td ->
         createClientAsync env url (wsdlHeadersFor td options st)
         = createClientAsync env' url (wsdlHeadersFor td options st)) ->
      connect env url options st = connect env' url options st).
Proof.
  split.
  - intros td. unfold wsdlHeadersFor.
    destruct (sessionCookies st !! td) as [[|x l]|];
      try (destruct (options !! "Cookie"); reflexivity).
    destruct (options !! "Cookie") as [v|] eqn:E.
    + rewrite (lookup_union_l' _ _ _ (mk_is_Some _ _ E)). exact E.
    + rewrite (lookup_union_r _ _ _ E). apply lookup_singleton_eq.
  - intros Hh Hc. unfold connect, connectAttempt, bind, modify, completed, throw, ret.
    simpl. rewrite <- Hh.
    destruct (hostname env (Some url)) as [td|e] eqn:E; simpl; [|reflexivity].
    specialize (Hc td eq_refl). unfold wsdlHeadersFor in Hc.
    destruct (sessionCookies st !! td) as [[|x l]|]; simpl in *; rewrite <- Hc;
      (destruct (createClientAsync env url _) as [err|c [loc|e]]; simpl;
       [reflexivity| |reflexivity]; rewrite <- Hh; reflexivity).
Qed.

Lemma connect_asks_with_preload_witness :
  connect Demo.platform Demo.loginWsdl ∅ Demo.loggedInA
  = connect {| hostname := Demo.hostOf;
               createClientAsync := fun u h =>
                 if decide (h !! "Cookie" = Some "SID=abc123")
                 then CreateResolved Demo.freshClient (Return (Some u))
                 else CreateRejected {| message := "401" |} |}
      Demo.loginWsdl ∅ Demo.loggedInA.
Proof.
  apply (proj2 (connect_asks_with_preload Demo.platform _ Demo.loginWsdl ∅ Demo.loggedInA)).
  - reflexivity.
  - intros td H. injection H as <-. reflexivity.
Defined.

End ConnectFacts.

(** * Further properties: the cookie store *)

Section StoreProperties.

#[local] Arguments applyCookiesForDomain : simpl never.

Lemma split_pieces (c : ascii) (s : string) :
  Forall (fun e => contains c e = false) (split c s).
Proof.
  induction s as [|a s IH]; simpl; [repeat constructor|].
  destruct (Ascii.eqb a c) eqn:E; [constructor; [reflexivity|exact IH]|].
  destruct (split c s) as [|h t]; [repeat constructor; simpl; rewrite E; reflexivity|].
  apply Forall_cons in IH as [Hh Ht]. constructor; [|exact Ht].
  simpl. rewrite E. exact Hh.
Qed.

Lemma contains_trimStart (c : ascii) (s : string) :
  contains c s = false -> contains c (trimStart s) = false.
Proof.
  induction s as [|a s IH]; simpl; [auto|].
  destruct (isSpace a); [|simpl; auto].
  destruct (Ascii.eqb a c); [discriminate|exact IH].
Qed.

Lemma contains_trimEnd (c : ascii) (s : string) :
  contains c s = false -> contains c (trimEnd s) = false.
Proof.
  induction s as [|a s IH]; simpl; [auto|].
  destruct (Ascii.eqb a c) eqn:E; [discriminate|]. intros H. specialize (IH H).
  destruct (trimEnd s) as [|b t].
  - destruct (isSpace a); simpl; rewrite ?E; reflexivity.
  - simpl in *. rewrite E. exact IH.
Qed.

Lemma contains_trim (c : ascii) (s : string) :
  contains c s = false -> contains c (trim s) = false.
Proof. intros H. apply contains_trimEnd, contains_trimStart, H. Qed.

Lemma parsed_entries_plain (cookieString : string) :
  Forall (fun e => contains ";" e = false) (map trim (split ";" cookieString)).
Proof.
  pose proof (split_pieces ";" cookieString) as H.
  induction H as [|x l Hx _ IH]; simpl; constructor; [|exact IH].
  apply contains_trim, Hx.
Qed.

(** X5. No stored cookie ever contains a [;]: in every state an instance
    can reach, the attributes of a [Set-Cookie] value (path, expiry,
    flags) have been cut off before the cookie was stored, and the entries
    given to [addCookiesForDomain] have been split at every [;]. *)
Theorem stored_cookies_carry_no_attributes (st : SOAPClient) :
  reachable st ->
  forall (d : string) (cookies : list string) (e : string),
    sessionCookies st !! d = Some cookies -> e ∈ cookies -> contains ";" e = false.
Proof.
  intros Hr. 
  assert (storeAll (Forall (fun e => contains ";" e = false)) st) as Hall.
  { induction Hr as [|c st _ IH].
    - intros d l H. simpl in H. rewrite lookup_empty in H. discriminate.
    - apply perform_storeAll; [| |exact IH].
      + intros old cookie Hold. unfold mergedInto. apply Forall_app. split.
        * destruct Hold as [->|Hold]; [constructor|].
          apply Forall_forall. intros x Hx. apply list_elem_of_filter in Hx as [_ Hx].
          revert x Hx. apply Forall_forall. exact Hold.
        * repeat constructor. unfold cookiePartOf. rewrite firstField_before.
          apply contains_before.
      + destruct c; simpl; try exact I. apply parsed_entries_plain. }
  intros d cookies e Hd He. specialize (Hall d cookies Hd).
  rewrite Forall_forall in Hall. exact (Hall e He).
Qed.

Lemma stored_cookies_carry_no_attributes_witness :
  contains ";" "SID=abc123" = false.
Proof.
  refine (stored_cookies_carry_no_attributes Demo.loggedInA _ Demo.domainA
            ["SID=abc123"] "SID=abc123" eq_refl _).
  - repeat apply reachable_call. apply reachable_new.
  - apply list_elem_of_here.
Defined.

(** X6. Of an array of cookies [processCookies] stores the last one only:
    each turn of its loop merges into the collection read before the loop
    and overwrites what the turn before stored, so the outcome for the
    store is that of merging the last cookie alone. An empty array leaves
    the store as it is, and then the method throws exactly when the domain
    has no collection. *)
Theorem processCookies_keeps_last_cookie_only (d : string) (st : SOAPClient) :
  (forall (earlier : list string) (c : string),
     sessionCookies (fst (processCookies (HArr (earlier ++ [c])) d st))
     = <[d := (filter (fun e => negb (entryFor (cookieNameOf c) e)) (collection d st)
               ++ [cookiePartOf c])%list]> (sessionCookies st))
  /\ sessionCookies (fst (processCookies (HArr []) d st)) = sessionCookies st
  /\ (snd (processCookies (HArr []) d st) = Throw joinOfUndefined
      <-> sessionCookies st !! d = None).
Proof.
  split; [|split].
  - intros earlier c. rewrite processCookies_store. simpl. rewrite last_snoc. reflexivity.
  - rewrite processCookies_store. reflexivity.
  - unfold processCookies. simpl.
    destruct (apply_frame d st) as (-> & _).
    destruct (sessionCookies st !! d); simpl; split; intros; congruence.
Qed.

(** The Cookie header and [authCookie] after a merge on a connected
    instance: the rendered collection. *)
Lemma processCookies_applied (v : HeaderValue) (d : string) (st : SOAPClient)
    (c : Client) (c0 : string) :
  client st = Some c -> truthy d = true -> last (toArray v) = Some c0 ->
  let st' := fst (processCookies v d st) in
  snd (processCookies v d st) = Return tt
  /\ cookieHeader st' = Some (join "; " (mergedInto (collection d st) c0))
  /\ authCookie st' = Some (join "; " (mergedInto (collection d st) c0)).
Proof.
  intros Hc Hd Hl. unfold processCookies. rewrite fold_storeCookie, Hl.
  fold (collection d st).
  set (st1 := setSessionCookies _ st).
  assert (sessionCookies st1 !! d = Some (mergedInto (collection d st) c0)) as Hs
    by (subst st1; simpl; apply lookup_insert_eq).
  destruct (apply_frame d st1) as (-> & _). rewrite Hs. cbv zeta. simpl.
  unfold applyCookiesForDomain, cookieHeader.
  replace (client st1) with (Some c) by (subst st1; simpl; congruence).
  rewrite Hd, Hs. simpl.
  pose proof (mergedInto_not_nil (collection d st) c0) as Hne.
  destruct (mergedInto (collection d st) c0) as [|x l]; [congruence|].
  simpl. rewrite lookup_insert_eq. auto.
Qed.

Lemma processCookies_keeps_last_cookie_only_witness :
  collection Demo.domainA
    (fst (processCookies (HArr ["A=1"; "SID=2; Path=/"; "B=3"]) Demo.domainA Demo.loggedInA))
  = ["SID=abc123"; "B=3"].
Proof.
  exact (f_equal (fun m => default [] (m !! Demo.domainA))
           (proj1 (processCookies_keeps_last_cookie_only Demo.domainA Demo.loggedInA)
              ["A=1"; "SID=2; Path=/"] "B=3")).
Defined.

(** X7. After a successful call on a connected instance with a domain in
    use, when a strategy yields at least one cookie, the Cookie header of
    the connection, [authCookie] and the answer of [getSessionCookies] are
    one and the same text: the rendered collection of the current domain. *)
Theorem executeMethod_header_follows_store {A : Type} (methodName : string)
    (res : CallResult A) (recorded : option (gmap string HeaderValue))
    (st : SOAPClient) (c : Client) (d : string) (found : Event) (v : HeaderValue) :
  client st = Some c ->
  domainInUse st = Some d ->
  firstYield strategies res (setClient (Some (recordHeaders recorded c)) st)
    = Some (found, v) ->
  toArray v <> [] ->
  let st' := fst (executeMethod methodName (RpcDone res recorded) st) in
  getSessionCookies st' = Some (join "; " (collection d st'))
  /\ cookieHeader st' = getSessionCookies st'
  /\ authCookie st' = getSessionCookies st'.
Proof.
  intros Hc Hd Hy Hne. cbv zeta. rewrite (executeMethod_done _ _ _ _ _ Hc). simpl fst.
  rewrite extract_by_priority. unfold extractByPriority.
  change (domainInUse (setClient (Some (recordHeaders recorded c)) st))
    with (domainInUse st). rewrite Hd, Hy.
  set (st1 := log found (setClient (Some (recordHeaders recorded c)) st)).
  destruct (last (toArray v)) as [c0|] eqn:Hl;
    [|apply last_None in Hl; contradiction].
  assert (truthy d = true) as Htd.
  { unfold domainInUse in Hd. destruct (currentDomain st) as [d0|]; [|discriminate].
    destruct (truthy d0) eqn:E; [|discriminate]. congruence. }
  destruct (processCookies_applied v d st1 (recordHeaders recorded c) c0
              eq_refl Htd Hl) as (Hr & Hh & Ha).
  pose proof (processCookies_store v d st1) as Hs. rewrite Hl in Hs.
  destruct (processCookies_frame v d st1) as (Hcd & _).
  destruct (processCookies v d st1) as [st' [[]|e]]; simpl in *; [|discriminate].
  assert (domainInUse st' = Some d) as Hd'.
  { unfold domainInUse in *. rewrite Hcd. exact Hd. }
  unfold getSessionCookies, collection. rewrite Hd', Hs, lookup_insert_eq. simpl.
  rewrite Hh, Ha. auto.
Qed.

Lemma executeMethod_header_follows_store_witness :
  cookieHeader Demo.loggedInA = Some "SID=abc123"
  /\ authCookie Demo.loggedInA = Some "SID=abc123".
Proof.
  destruct (executeMethod_header_follows_store "Login"
              {| result := "welcome"; raw := RawUndefined |}
              (Demo.setCookieHeaders (HArr ["SID=abc123; Path=/"])) Demo.connectedA
              Demo.freshClient Demo.domainA LogFoundInClientHeaders
              (HArr ["SID=abc123; Path=/"]) eq_refl eq_refl eq_refl
              ltac:(discriminate)) as (_ & H1 & H2).
  exact (conj H1 H2).
Defined.

(** X8. [clearSessionCookies] removes the collection of the domain it is
    given (of the current domain when it is given none) and no other; it
    does not touch the connection, so the Cookie header that was attached
    stays attached, while [getSessionCookies] answers [null] once the
    current domain is cleared. *)
Theorem clearSessionCookies_keeps_header (domain : option string) (st : SOAPClient) :
  cookieHeader (clearSessionCookies domain st) = cookieHeader st
  /\ authCookie (clearSessionCookies domain st) = authCookie st
  /\ currentDomain (clearSessionCookies domain st) = currentDomain st
  /\ (forall d, truthy d = true ->
        sessionCookies (clearSessionCookies (Some d) st) = delete d (sessionCookies st))
  /\ (forall d, domainInUse st = Some d ->
        sessionCookies (clearSessionCookies None st) = delete d (sessionCookies st)
        /\ getSessionCookies (clearSessionCookies None st) = None).
Proof.
  unfold clearSessionCookies, cookieHeader. repeat split.
  - destruct domain as [d|]; [destruct (truthy d) eqn:E; [rewrite ?E; reflexivity|]|];
      (destruct (currentDomain st) as [t|] eqn:Ecd; [destruct (truthy t)|];
       simpl; rewrite ?Ecd; reflexivity).
  - destruct domain as [d|]; [destruct (truthy d) eqn:E; [rewrite ?E; reflexivity|]|];
      (destruct (currentDomain st) as [t|] eqn:Ecd; [destruct (truthy t)|];
       simpl; rewrite ?Ecd; reflexivity).
  - destruct domain as [d|]; [destruct (truthy d) eqn:E; [rewrite ?E; reflexivity|]|];
      (destruct (currentDomain st) as [t|] eqn:Ecd; [destruct (truthy t)|];
       simpl; rewrite ?Ecd; reflexivity).
  - intros d E. rewrite E. simpl. rewrite E. reflexivity.
  - unfold domainInUse in H. destruct (currentDomain st) as [t|]; [|discriminate].
    destruct (truthy t); [|discriminate]. injection H as ->. reflexivity.
  - unfold domainInUse in H. unfold getSessionCookies, domainInUse.
    destruct (currentDomain st) as [t|] eqn:Ecd; [|discriminate].
    destruct (truthy t) eqn:Et; [|discriminate]. injection H as ->. simpl.
    rewrite Ecd, Et, lookup_delete_eq. reflexivity.
Qed.

Lemma clearSessionCookies_keeps_header_witness :
  getSessionCookies (clearSessionCookies None Demo.loggedInA) = None
  /\ cookieHeader (clearSessionCookies None Demo.loggedInA) = Some "SID=abc123".
Proof.
  destruct (clearSessionCookies_keeps_header None Demo.loggedInA)
    as (H1 & _ & _ & _ & H2).
  split; [exact (proj2 (H2 Demo.domainA eq_refl))|exact H1].
Defined.

Lemma trimEnd_again (s : string) : trimEnd (trimEnd s) = trimEnd s.
Proof.
  induction s as [|a s IH]; simpl; [reflexivity|].
  destruct (trimEnd s) as [|b t] eqn:E.
  - destruct (isSpace a) eqn:Ea; simpl; rewrite ?Ea; reflexivity.
  - simpl in IH. simpl. rewrite IH. reflexivity.
Qed.

Lemma trimStart_trimEnd (s : string) :
  trimStart (trimEnd (trimStart s)) = trimEnd (trimStart s).
Proof.
  induction s as [|a s IH]; simpl; [reflexivity|].
  destruct (isSpace a) eqn:Ea; [exact IH|].
  simpl. destruct (trimEnd s) as [|b t]; rewrite ?Ea; simpl; rewrite Ea; reflexivity.
Qed.

Lemma trim_again (s : string) : trim (trim s) = trim s.
Proof. unfold trim. rewrite trimStart_trimEnd. apply trimEnd_again. Qed.

Lemma split_no_separator (c : ascii) (x : string) :
  contains c x = false -> split c x = [x].
Proof.
  induction x as [|a x IH]; simpl; [reflexivity|].
  destruct (Ascii.eqb a c); [discriminate|]. intros H. rewrite (IH H). reflexivity.
Qed.

Lemma split_at_separator (c : ascii) (x s : string) :
  contains c x = false -> split c (x +:+ String c s) = x :: split c s.
Proof.
  induction x as [|a x IH]; simpl.
  - intros _. rewrite Ascii.eqb_refl. reflexivity.
  - destruct (Ascii.eqb a c); [discriminate|]. intros H. rewrite (IH H). reflexivity.
Qed.

Lemma trim_after_space (s : string) :
  map trim (split ";" (String " " s)) = map trim (split ";" s).
Proof.
  simpl. pose proof (split_not_nil ";" s) as Hne.
  destruct (split ";" s) as [|h t]; [contradiction|]. reflexivity.
Qed.

(** Reading a rendered collection back gives the collection. *)
Lemma parse_rendered (l : list string) :
  l <> [] -> Forall plainEntry l -> map trim (split ";" (join "; " l)) = l.
Proof.
  intros Hne H. induction H as [|x l [Hx Ht] Hl IH]; [contradiction|].
  destruct l as [|y l].
  - simpl. rewrite (split_no_separator _ _ Hx). simpl. rewrite Ht. reflexivity.
  - change (join "; " (x :: y :: l)) with (x +:+ String ";" (String " " (join "; " (y :: l)))).
    rewrite (split_at_separator _ _ _ Hx), map_cons, Ht. f_equal.
    rewrite trim_after_space. apply IH. discriminate.
Qed.

Lemma parsed_entries_trimmed (cookieString : string) :
  Forall plainEntry (map trim (split ";" cookieString)).
Proof.
  pose proof (parsed_entries_plain cookieString) as Hp.
  induction (split ";" cookieString) as [|x l IH]; simpl in *; [constructor|].
  apply Forall_cons in Hp as [Hx Hl]. constructor; [|exact (IH Hl)].
  split; [exact Hx|apply trim_again].
Qed.

(** X9. [addCookiesForDomain] refuses an empty domain or an empty cookie
    string and then changes neither the store nor the connection.
    Otherwise it returns [true] and replaces (it does not merge into) the
    collection of the domain by the pieces of the cookie string between
    the [;], each without surrounding white space; on a connected instance
    whose current domain is that domain the Cookie header becomes the
    rendering of these pieces. *)
Theorem addCookiesForDomain_replaces (d cookieString : string) (st : SOAPClient) :
  let st' := fst (addCookiesForDomain d cookieString st) in
  let pieces := map trim (split ";" cookieString) in
  (truthy d && truthy cookieString = false ->
     snd (addCookiesForDomain d cookieString st) = false
     /\ sessionCookies st' = sessionCookies st /\ client st' = client st)
  /\ (truthy d && truthy cookieString = true ->
        snd (addCookiesForDomain d cookieString st) = true
        /\ sessionCookies st' = <[d := pieces]> (sessionCookies st)
        /\ Forall plainEntry pieces
        /\ (forall c, client st = Some c -> currentDomain st = Some d ->
              cookieHeader st' = Some (join "; " pieces))).
Proof.
  cbv zeta. split; intros H.
  - unfold addCookiesForDomain. rewrite <- negb_andb, H. simpl. auto.
  - pose proof (add_store d cookieString st) as Hs. rewrite H in Hs.
    split; [|split; [exact Hs|split]].
    + unfold addCookiesForDomain. rewrite <- negb_andb, H. reflexivity.
    + apply parsed_entries_trimmed.
    + intros c Hc Hd. apply andb_prop in H as [Htd Hcs].
      unfold addCookiesForDomain. rewrite Htd, Hcs. simpl.
      rewrite Hd, Hc, String.eqb_refl.
      unfold cookieHeader. simpl.
      pose proof (apply_cookieHeader d
        (setSessionCookies (<[d:=map trim (split ";" cookieString)]> (sessionCookies st)) st)
        c Hc) as Ha.
      unfold cookieHeader in Ha. rewrite Ha, Htd. simpl. rewrite lookup_insert_eq.
      pose proof (split_not_nil ";" cookieString) as Hne.
      destruct (split ";" cookieString) as [|x l]; [contradiction|]. reflexivity.
Qed.

Lemma addCookiesForDomain_replaces_witness :
  collection Demo.domainA (fst (addCookiesForDomain Demo.domainA " T=1 ;U=2" Demo.loggedInA))
  = ["T=1"; "U=2"]
  /\ cookieHeader (fst (addCookiesForDomain Demo.domainA " T=1 ;U=2" Demo.loggedInA))
     = Some "T=1; U=2"
  /\ snd (addCookiesForDomain "" "T=1" Demo.loggedInA) = false.
Proof.
  destruct (addCookiesForDomain_replaces Demo.domainA " T=1 ;U=2" Demo.loggedInA)
    as [_ H]. destruct (H eq_refl) as (_ & Hs & _ & Hh).
  destruct (addCookiesForDomain_replaces "" "T=1" Demo.loggedInA) as [H0 _].
  split; [|split].
  - unfold collection. rewrite Hs. reflexivity.
  - exact (Hh _ eq_refl eq_refl).
  - exact (proj1 (H0 eq_refl)).
Defined.

(** X10. What [getSessionCookies] renders can be given back to
    [addCookiesForDomain]: for a collection whose entries contain no [;]
    and carry no white space at either end, storing its rendering (when
    that is not the empty text) stores the collection itself. *)
Theorem addCookiesForDomain_reads_rendering (d : string) (cookies : list string)
    (st : SOAPClient) :
  truthy d = true ->
  truthy (join "; " cookies) = true ->
  Forall plainEntry cookies ->
  listAllCookies (fst (addCookiesForDomain d (join "; " cookies) st)) !! d = Some cookies.
Proof.
  intros Hd Hj Hp. unfold listAllCookies. rewrite add_store, Hd, Hj. simpl.
  rewrite lookup_insert_eq. f_equal. apply parse_rendered; [|exact Hp].
  intros ->. discriminate.
Qed.

Lemma addCookiesForDomain_reads_rendering_witness :
  listAllCookies (fst (addCookiesForDomain "c.example.net" "SID=abc123; T=9" newSOAPClient))
    !! "c.example.net" = Some ["SID=abc123"; "T=9"].
Proof.
  apply (addCookiesForDomain_reads_rendering "c.example.net" ["SID=abc123"; "T=9"]
           newSOAPClient eq_refl eq_refl).
  repeat constructor.
Defined.

End StoreProperties.

Section ApplyTwice.

#[local] Arguments applyCookiesForDomain : simpl never.
#[local] Arguments join : simpl never.

(** X11. Applying the cookies of a domain a second time changes nothing
    but the console: the client with its headers and [authCookie] are
    those after the first application. *)
Theorem applyCookiesForDomain_twice (d : string) (st : SOAPClient) :
  client (applyCookiesForDomain d (applyCookiesForDomain d st))
  = client (applyCookiesForDomain d st)
  /\ authCookie (applyCookiesForDomain d (applyCookiesForDomain d st))
     = authCookie (applyCookiesForDomain d st).
Proof.
  remember (applyCookiesForDomain d st) as st1 eqn:E.
  unfold applyCookiesForDomain in E.
  destruct (client st) as [c|] eqn:Hc;
    [destruct (truthy d) eqn:Hd;
     [destruct (sessionCookies st !! d) as [[|x l]|] eqn:Hs|]|];
    simpl in E; subst st1; unfold applyCookiesForDomain; simpl;
    rewrite ?Hc, ?Hd, ?Hs; simpl; auto.
  rewrite lookup_insert_eq. split; [|reflexivity]. f_equal.
  unfold addHttpHeader, deleteHttpHeader. simpl.
  destruct (truthy (join "; " (x :: l))); simpl;
    rewrite ?insert_delete_eq, insert_insert_eq; reflexivity.
Qed.

End ApplyTwice.

(** * Further properties: [authenticate] *)

Section AuthenticateFacts.

(** X12. [authenticate] never succeeds on an instance without a client,
    whatever the method and whatever the service answers, and it leaves
    the instance without a client and the cookie store as it was. *)
Theorem authenticate_needs_client (authMethod : string)
    (posted : Completion (option HeaderValue)) (st : SOAPClient) :
  client st = None ->
  snd (authenticate authMethod posted st) = false
  /\ client (fst (authenticate authMethod posted st)) = None
  /\ sessionCookies (fst (authenticate authMethod posted st)) = sessionCookies st.
Proof.
  intros Hc. split; [|split; [|apply authenticate_store]];
    unfold authenticate, authenticateAttempt, authenticateWithCookie;
    (destruct (String.eqb authMethod "basic" || String.eqb authMethod "wsse");
     [rewrite Hc; simpl; auto|]);
    (destruct (String.eqb authMethod "cookie"); [|simpl; auto]);
    destruct posted as [[[s|[|x l]]|]|e]; simpl; auto;
    try (destruct (truthy s); simpl; auto);
    destruct (truthy _); simpl; rewrite ?Hc; simpl; auto.
Qed.

Lemma authenticate_needs_client_witness :
  snd (authenticate "cookie" (Return (Some (HArr ["T=1; Path=/"]))) newSOAPClient) = false.
Proof.
  exact (proj1 (authenticate_needs_client "cookie" (Return (Some (HArr ["T=1; Path=/"])))
                  newSOAPClient eq_refl)).
Defined.

(** X13. Cookie authentication succeeds exactly when the instance has a
    client and the response to the authentication request carries a
    non-empty [set-cookie] array whose cookies, cut at their first [;] and
    joined by "; ", are not the empty text. That text then is the Cookie
    header and [authCookie]; the cookie store is not written, so
    [getSessionCookies] does not show these cookies. A [set-cookie] header
    that is a single string does not authenticate. *)
Theorem authenticate_cookie_outcome (posted : Completion (option HeaderValue))
    (st : SOAPClient) :
  let st' := fst (authenticate "cookie" posted st) in
  (snd (authenticate "cookie" posted st) = true
   <-> client st <> None
       /\ exists x l, posted = Return (Some (HArr (x :: l)))
                      /\ truthy (join "; " (map (firstField ";") (x :: l))) = true)
  /\ (forall x l, snd (authenticate "cookie" posted st) = true ->
        posted = Return (Some (HArr (x :: l))) ->
        cookieHeader st' = Some (join "; " (map (firstField ";") (x :: l)))
        /\ authCookie st' = Some (join "; " (map (firstField ";") (x :: l))))
  /\ getSessionCookies st' = getSessionCookies st.
Proof.
  cbv zeta. unfold authenticate, authenticateAttempt, authenticateWithCookie.
  change (String.eqb "cookie" "basic" || String.eqb "cookie" "wsse") with false.
  change (String.eqb "cookie" "cookie") with true. cbv iota.
  destruct posted as [[[s|[|x l]]|]|e].
  - destruct (truthy s); simpl; (split; [split; [discriminate|]|split; [discriminate|reflexivity]]);
      intros (_ & x & l & H & _); discriminate.
  - simpl. split; [split; [discriminate|]|split; [discriminate|reflexivity]].
    intros (_ & x & l & H & _); discriminate.
  - destruct (truthy (join "; " (map (firstField ";") (x :: l)))) eqn:Ht.
    + destruct (client st) as [c|] eqn:Hc; cbn -[join map].
      * unfold cookieHeader, getSessionCookies, domainInUse. cbn -[join map].
        rewrite Hc. split; [split; [|reflexivity]|].
        -- intros _. split; [discriminate|]. exists x, l. auto.
        -- split; [|reflexivity]. intros x' l' _ [= <- <-].
           cbn -[join map]. rewrite lookup_insert_eq. auto.
      * rewrite Hc. split; [split; [discriminate|]|split; [discriminate|reflexivity]].
        intros (H & _). contradiction.
    + cbn -[join map]. split; [split; [discriminate|]|split; [discriminate|reflexivity]].
      intros (_ & x' & l' & [= <- <-] & H). congruence.
  - simpl. split; [split; [discriminate|]|split; [discriminate|reflexivity]].
    intros (_ & x & l & H & _); discriminate.
  - simpl. split; [split; [discriminate|]|split; [discriminate|reflexivity]].
    intros (_ & x & l & H & _); discriminate.
Qed.

Lemma authenticate_cookie_outcome_witness :
  let posted := Return (Some (HArr ["T=1; Path=/"; "U=2; HttpOnly"])) in
  cookieHeader (fst (authenticate "cookie" posted Demo.loggedInA)) = Some "T=1; U=2"
  /\ getSessionCookies (fst (authenticate "cookie" posted Demo.loggedInA))
     = Some "SID=abc123".
Proof.
  cbv zeta.
  destruct (authenticate_cookie_outcome
              (Return (Some (HArr ["T=1; Path=/"; "U=2; HttpOnly"]))) Demo.loggedInA)
    as (_ & H & Hg).
  split; [exact (proj1 (H _ _ eq_refl eq_refl))|exact Hg].
Defined.

End AuthenticateFacts.

(** * Further properties: the [Set-Cookie] scan *)

Section ScanFacts.

Import SetCookieScan.

Lemma lineRun_oneLine (s : string) : oneLine (lineRun s) = true.
Proof.
  induction s as [|a s IH]; simpl; [reflexivity|].
  destruct (notLineBreak a) eqn:E; simpl; [rewrite E; exact IH|reflexivity].
Qed.

Lemma oneLine_trimStart (s : string) : oneLine s = true -> oneLine (trimStart s) = true.
Proof.
  induction s as [|a s IH]; simpl; [auto|].
  intros H. apply andb_prop in H as [Ha Hs].
  destruct (isSpace a); [auto|]. simpl. rewrite Ha, Hs. reflexivity.
Qed.

Lemma trimStart_again (s : string) : trimStart (trimStart s) = trimStart s.
Proof.
  induction s as [|a s IH]; simpl; [reflexivity|].
  destruct (isSpace a) eqn:E; [exact IH|]. simpl. rewrite E. reflexivity.
Qed.

Lemma lineRun_line (v t : string) :
  oneLine v = true ->
  (t = EmptyString \/ exists a t', t = String a t' /\ notLineBreak a = false) ->
  lineRun (v +:+ t) = v.
Proof.
  intros Hv Ht. induction v as [|a v IH]; simpl.
  - destruct Ht as [->|(a & t' & -> & Ha)]; simpl; [reflexivity|]. rewrite Ha. reflexivity.
  - simpl in Hv. apply andb_prop in Hv as [Ha Hv]. rewrite Ha, (IH Hv). reflexivity.
Qed.

(** The value matched after the header is, once its leading white space
    is off, a text on one line. *)
Lemma spacesThenValue_line (s m : string) :
  spacesThenValue s = Some m -> oneLine (trimStart m) = true.
Proof.
  revert m. induction s as [|a s IH]; intros m; simpl; [discriminate|].
  assert (valuePlus (String a s) = Some m -> oneLine (trimStart m) = true) as Hv.
  { unfold valuePlus. pose proof (lineRun_oneLine (String a s)) as H.
    destruct (lineRun (String a s)) as [|b r]; [discriminate|].
    intros [= <-]. apply oneLine_trimStart, H. }
  destruct (isSpace a) eqn:Ea; [|exact Hv].
  destruct (spacesThenValue s) as [m'|]; [|exact Hv].
  intros [= <-]. simpl. rewrite Ea. apply IH. reflexivity.
Qed.

Lemma literal_ci_rebuilt (pat s rest x : string) :
  literal_ci pat s = Some rest ->
  literal_ci pat (substring 0 (String.length pat) s +:+ x) = Some x.
Proof.
  revert s. induction pat as [|p pat IH]; intros s; simpl.
  - intros _. destruct s; reflexivity.
  - destruct s as [|a s]; [discriminate|].
    destruct (Ascii.eqb (canonicalize p) (canonicalize a)) eqn:E; [|discriminate].
    intros H. simpl. rewrite E. eapply IH, H.
Qed.

Lemma stripHeader_at_header (m rest : string) :
  literal_ci header m = Some rest -> stripHeader m = trimStart rest.
Proof.
  intros H. destruct m as [|a m]; [discriminate|].
  change (stripHeader (String a m))
    with (match literal_ci header (String a m) with
          | Some rest => trimStart rest
          | None => String a (stripHeader m)
          end).
  rewrite H. reflexivity.
Qed.

Lemma matchAt_value (s m : string) :
  matchAt s = Some m ->
  oneLine (stripHeader m) = true /\ trimStart (stripHeader m) = stripHeader m.
Proof.
  unfold matchAt. destruct (literal_ci header s) as [rest|] eqn:E; [|discriminate].
  destruct (spacesThenValue rest) as [m'|] eqn:E'; [|discriminate].
  intros [= <-].
  change 11 with (String.length header).
  rewrite (stripHeader_at_header _ m' (literal_ci_rebuilt _ _ _ m' E)).
  split; [eapply spacesThenValue_line, E'|apply trimStart_again].
Qed.

Lemma matchAllFrom_matches (skip : nat) (s m : string) :
  m ∈ matchAllFrom skip s -> exists s', matchAt s' = Some m.
Proof.
  revert skip. induction s as [|a s IH]; intros skip; simpl.
  - intros H. apply elem_of_nil in H. contradiction.
  - destruct skip as [|k]; [|apply IH].
    destruct (matchAt (String a s)) as [m'|] eqn:E; [|apply IH].
    intros H. apply elem_of_cons in H as [->|H]; [eauto|eapply IH, H].
Qed.

(** X14. Whatever the response text, every cookie value the scan hands to
    [processCookies] lies on one line and does not start with white space. *)
Theorem scanned_values_are_lines (raw : string) (values : list string) (v : string) :
  scan raw = Some values -> v ∈ values ->
  oneLine v = true /\ trimStart v = v.
Proof.
  unfold scan, matchAll.
  destruct (matchAllFrom 0 raw) as [|m ms] eqn:E; [discriminate|].
  intros [= <-] Hv. change (v ∈ map stripHeader (m :: ms)) in Hv.
  apply list_elem_of_In, in_map_iff in Hv as (m0 & <- & Hm).
  apply list_elem_of_In in Hm. rewrite <- E in Hm. apply matchAllFrom_matches in Hm as (s' & Hs').
  eapply matchAt_value, Hs'.
Qed.

Lemma scanned_values_are_lines_witness :
  oneLine "Foo: bar" = true /\ trimStart "Foo: bar" = "Foo: bar".
Proof.
  apply (scanned_values_are_lines ("Set-Cookie: " +:+ CR +:+ LF +:+ "Foo: bar")
           ["Foo: bar"] "Foo: bar" eq_refl).
  apply list_elem_of_here.
Defined.

Lemma matchAllFrom_skip (p t : string) :
  matchAllFrom (String.length p) (p +:+ t) = matchAllFrom 0 t.
Proof.
  induction p as [|a p IH]; simpl; [|exact IH].
  destruct t; reflexivity.
Qed.

Lemma matchAt_after_header (x m : string) :
  spacesThenValue (String " " x) = Some m ->
  matchAt ("Set-Cookie: " +:+ x) = Some ("Set-Cookie:" +:+ m).
Proof.
  intros H. unfold matchAt.
  change (literal_ci header ("Set-Cookie: " +:+ x)) with (Some (String " " x)).
  cbv beta iota. rewrite H. reflexivity.
Qed.

Lemma spacesThenValue_line_value (v t : string) :
  headerValue v = true ->
  (t = EmptyString \/ exists a t', t = String a t' /\ notLineBreak a = false) ->
  spacesThenValue (String " " (v +:+ t)) = Some (String " " v).
Proof.
  intros Hv Ht. destruct v as [|a v]; [discriminate|].
  simpl in Hv. apply andb_prop in Hv as [Ha Hv]. apply negb_true_iff in Ha.
  assert (spacesThenValue (String a v +:+ t) = Some (String a v)) as H.
  { change (String a v +:+ t) with (String a (v +:+ t)).
    cbn [spacesThenValue]. rewrite Ha. unfold valuePlus.
    change (String a (v +:+ t)) with (String a v +:+ t).
    rewrite (lineRun_line (String a v) t Hv Ht). reflexivity. }
  change (spacesThenValue (String " " (String a v +:+ t)))
    with (match spacesThenValue (String a v +:+ t) with
          | Some m => Some (String " " m)
          | None => valuePlus (String " " (String a v +:+ t))
          end).
  rewrite H. reflexivity.
Qed.

Lemma matchAllFrom_line_break (t : string) :
  matchAllFrom 0 (CR +:+ LF +:+ t) = matchAllFrom 0 t.
Proof. destruct t; reflexivity. Qed.

(** The matches in a text of header lines: one per line. *)
Lemma matchAllFrom_headerLines (values : list string) :
  Forall (fun v => headerValue v = true) values ->
  matchAllFrom 0 (headerLines values) = map (fun v => "Set-Cookie: " +:+ v) values.
Proof.
  induction 1 as [|v values Hv _ IH]; [reflexivity|].
  cbn [headerLines map].
  assert (matchAt ("Set-Cookie: " +:+ v +:+ CR +:+ LF +:+ headerLines values)
          = Some ("Set-Cookie: " +:+ v)) as Hm.
  { apply (matchAt_after_header (v +:+ CR +:+ LF +:+ headerLines values) (String " " v)).
    apply spacesThenValue_line_value; [exact Hv|].
    right. eexists _, _. split; reflexivity. }
  change ("Set-Cookie: " +:+ v +:+ CR +:+ LF +:+ headerLines values)
    with (String "S" ("et-Cookie: " +:+ v +:+ CR +:+ LF +:+ headerLines values)) in *.
  cbn [matchAllFrom]. rewrite Hm. f_equal.
  change (String.length ("Set-Cookie: " +:+ v) - 1)
    with (String.length ("et-Cookie: " +:+ v)).
  replace ("et-Cookie: " +:+ v +:+ CR +:+ LF +:+ headerLines values)
    with (("et-Cookie: " +:+ v) +:+ CR +:+ LF +:+ headerLines values) by reflexivity.
  rewrite matchAllFrom_skip, matchAllFrom_line_break. exact IH.
Qed.

Lemma stripHeader_line (v : string) :
  headerValue v = true -> stripHeader ("Set-Cookie: " +:+ v) = v.
Proof.
  intros Hv. rewrite (stripHeader_at_header _ (String " " v)) by reflexivity.
  destruct v as [|a v]; [discriminate|]. simpl in Hv. apply andb_prop in Hv as [Ha _].
  apply negb_true_iff in Ha. simpl. rewrite Ha. reflexivity.
Qed.

Lemma scan_headerLines (v : string) (values : list string) :
  Forall (fun v => headerValue v = true) (v :: values) ->
  scan (headerLines (v :: values)) = Some (v :: values).
Proof.
  intros H. unfold scan, matchAll. rewrite (matchAllFrom_headerLines _ H).
  cbn [map]. f_equal. rewrite <- !map_cons.
  induction H as [|x l Hx _ IH]; [reflexivity|].
  cbn [map]. rewrite (stripHeader_line _ Hx), IH. reflexivity.
Qed.

(** X15. A response text made of lines [Set-Cookie: v], each ended by
    CR LF, is scanned into exactly the values of its lines, in order, when
    every value is a non-empty text on one line that does not start with
    white space; without any such line the scan finds nothing. *)
Theorem scan_reads_header_lines (values : list string) :
  Forall (fun v => headerValue v = true) values ->
  scan (headerLines values) = match values with [] => None | _ => Some values end.
Proof.
  intros H. unfold scan, matchAll. rewrite (matchAllFrom_headerLines _ H).
  destruct H as [|x l Hx Hl]; [reflexivity|].
  cbn [map]. rewrite (stripHeader_line _ Hx). do 2 f_equal.
  induction Hl as [|y l Hy _ IH]; [reflexivity|].
  cbn [map]. rewrite (stripHeader_line _ Hy), IH. reflexivity.
Qed.

Lemma scan_reads_header_lines_witness :
  scan (headerLines ["SID=abc123; Path=/"; "T=9"]) = Some ["SID=abc123; Path=/"; "T=9"].
Proof.
  apply (scan_reads_header_lines ["SID=abc123; Path=/"; "T=9"]).
  repeat constructor.
Defined.

(** X16. [extractAndStoreCookies] on a response text of [Set-Cookie]
    lines, with a domain in use and no [set-cookie] among the client's
    last response headers, merges the cookie of the last line into the
    collection of the current domain; the cookies of the lines before it
    are not stored. *)
Theorem extractAndStoreCookies_from_text (st : SOAPClient) (d : string)
    (earlier : list string) (v : string) :
  domainInUse st = Some d ->
  setCookieOf (match client st with
               | Some c => lastResponseHeaders c
               | None => None
               end) = None ->
  Forall (fun v => headerValue v = true) (earlier ++ [v]) ->
  sessionCookies (extractAndStoreCookies (RawText (headerLines (earlier ++ [v]))) st)
  = <[d := (filter (fun e => negb (entryFor (cookieNameOf v) e)) (collection d st)
            ++ [cookiePartOf v])%list]> (sessionCookies st).
Proof.
  intros Hd Hc Hv. unfold extractAndStoreCookies.
  rewrite extract_by_priority. unfold extractByPriority. rewrite Hd.
  assert (firstYield strategies {| result := (); raw := RawText (headerLines (earlier ++ [v])) |} st
          = Some (LogFoundInRawText, HArr (earlier ++ [v]))) as ->.
  { simpl firstYield. unfold fromClientHeaders, fromRawHeaders, fromRawText. simpl raw.
    replace (match client st with
             | Some c => option_map (pair LogFoundInClientHeaders)
                           (setCookieOf (lastResponseHeaders c))
             | None => None
             end) with (@None (Event * HeaderValue))
      by (destruct (client st); [rewrite Hc|]; reflexivity).
    rewrite (scan_reads_header_lines _ Hv).
    destruct earlier; reflexivity. }
  pose proof (processCookies_store (HArr (earlier ++ [v])) d (log LogFoundInRawText st)) as H.
  simpl toArray in H. rewrite last_snoc in H.
  destruct (processCookies (HArr (earlier ++ [v])) d (log LogFoundInRawText st))
    as [st' [u|e]]; exact H.
Qed.

Lemma extractAndStoreCookies_from_text_witness :
  collection Demo.domainA
    (extractAndStoreCookies
       (RawText (headerLines ["A=1; Path=/"; "SID=xyz; HttpOnly"])) Demo.connectedA)
  = ["SID=xyz"].
Proof.
  assert (Forall (fun v => headerValue v = true) ["A=1; Path=/"; "SID=xyz; HttpOnly"]) as H
    by (repeat constructor).
  exact (f_equal (fun m => default [] (m !! Demo.domainA))
           (extractAndStoreCookies_from_text Demo.connectedA Demo.domainA
              ["A=1; Path=/"] "SID=xyz; HttpOnly" eq_refl eq_refl H)).
Defined.

End ScanFacts.

(** * The claim about the order of the extraction strategies *)

Section ExtractionPriority.

Context {A : Type}.

(** C4, amended. Extraction tries, in this order, the client's last
    response headers, the headers of a raw response object and the scan of
    a raw text for [Set-Cookie:] lines, and stops at the first strategy
    whose source holds a [set-cookie] value; for the two header sources
    that is any non-empty string and any array, also an array without
    elements, for the scan at least one match. That value alone is merged,
    never a later strategy's: with a value in the client's last response
    headers the store is the store after merging it, whatever the raw
    response holds (an array without elements there ends extraction with
    the store as it was); the raw headers are used when the client's
    headers hold no value, and the scan of a raw text when they hold none
    either; a raw text of [Set-Cookie] lines is then merged as the array of
    its values. Without any value the store stays as it is. Where the
    first value found holds one or more cookie values, this is extraction
    as the strategy that first yields cookie values describes it. *)
Theorem extraction_first_strategy_wins (res : CallResult A) (st : SOAPClient) :
  extractCookiesFromMultipleSources res st = extractByPriority res st
  /\ ((forall ev v, firstYield strategies res st = Some (ev, v) -> holdsCookies v = true) ->
      extractionAsClaimed res st)
  /\ forall d : string, domainInUse st = Some d ->
       let stored := sessionCookies (extractCookiesFromMultipleSources res st) in
       let after := fun v => sessionCookies (fst (processCookies v d st)) in
       (forall v, setCookieOf (lastHeaders st) = Some v -> stored = after v)
       /\ (forall m, lastHeaders st = Some m -> m !! "set-cookie" = Some (HArr []) ->
             stored = sessionCookies st)
       /\ (setCookieOf (lastHeaders st) = None ->
             (forall h v, raw res = RawResponse h -> setCookieOf h = Some v ->
                stored = after v)
             /\ (forall body cookies,
                   raw res = RawText body -> SetCookieScan.scan body = Some cookies ->
                   stored = after (HArr cookies))
             /\ (forall v values,
                   raw res = RawText (headerLines (v :: values)) ->
                   Forall (fun v => headerValue v = true) (v :: values) ->
                   stored = after (HArr (v :: values)))
             /\ (firstYield strategies res st = None -> stored = sessionCookies st)).
Proof.
  split; [apply extract_by_priority|]. split.
  - intros H d Hd. rewrite (extract_store res st d Hd).
    rewrite (firstYield_withCookies _ _ _ H). reflexivity.
  - intros d Hd. cbv zeta. rewrite (extract_store res st d Hd), firstYield_cases.
    split; [|split].
    + intros v ->. reflexivity.
    + intros m Hm Hv. unfold setCookieOf. rewrite Hm, Hv. simpl.
      apply processCookies_store.
    + intros ->. split; [|split; [|split]].
      * intros h v -> ->. reflexivity.
      * intros body cookies -> ->. reflexivity.
      * intros v values -> Hv. rewrite (scan_headerLines _ _ Hv). reflexivity.
      * intros ->. reflexivity.
Qed.

End ExtractionPriority.

Section ExtractionPriorityAtWork.

(** C4, as stated, fails: the client's last response headers hold a
    [set-cookie] array without elements, the response text holds
    [Set-Cookie: SID=body]. The first strategy yields no cookie value and
    the scan would yield one, yet extraction stops at the first: nothing
    is stored. *)
Lemma extraction_stops_at_empty_array :
  let body := RawText ("Set-Cookie: SID=body" +:+ CR +:+ LF) in
  let res := {| result := "ok"; raw := body |} in
  let st := setClient
              (Some (recordHeaders (Demo.setCookieHeaders (HArr [])) Demo.freshClient))
              Demo.connectedA in
  fst (executeMethod "Login" (Demo.answer "ok" (Demo.setCookieHeaders (HArr [])) body)
         Demo.connectedA)
  = extractCookiesFromMultipleSources res st
  /\ fromClientHeaders res st = Some (LogFoundInClientHeaders, HArr [])
  /\ holdsCookies (HArr []) = false
  /\ fromRawText res st = Some (LogFoundInRawText, HArr ["SID=body"])
  /\ collection Demo.domainA (extractCookiesFromMultipleSources res st) = []
  /\ ~ extractionAsClaimed res st.
Proof.
  cbv zeta. repeat split; try reflexivity.
  intros H. specialize (H Demo.domainA eq_refl).
  apply (f_equal (fun m => m !! Demo.domainA)) in H.
  vm_compute in H. discriminate.
Qed.

(** The response headers say [SID=hdr], the response text says
    [SID=body]: the store holds the header's value only. Without response
    headers on the client, the headers of the raw response are read, and
    without those the text is scanned. *)
Lemma extraction_first_strategy_wins_witness :
  let st := setClient
              (Some (recordHeaders (Demo.setCookieHeaders (HArr ["SID=hdr"])) Demo.freshClient))
              Demo.connectedA in
  let body := RawText ("Set-Cookie: SID=body" +:+ CR +:+ LF) in
  let response := RawResponse (Demo.setCookieHeaders (HStr "SID=raw; Path=/")) in
  collection Demo.domainA
    (extractCookiesFromMultipleSources {| result := "ok"; raw := body |} st)
  = ["SID=hdr"]
  /\ collection Demo.domainA
       (extractCookiesFromMultipleSources {| result := "ok"; raw := response |}
          Demo.connectedA)
     = ["SID=raw"]
  /\ collection Demo.domainA
       (extractCookiesFromMultipleSources {| result := "ok"; raw := body |}
          Demo.connectedA)
     = ["SID=body"]
  /\ collection Demo.domainA
       (extractCookiesFromMultipleSources
          {| result := "ok"; raw := RawText (headerLines ["A=1; Path=/"; "SID=xyz"]) |}
          Demo.connectedA)
     = ["SID=xyz"]
  /\ extractionAsClaimed {| result := "ok"; raw := body |} st.
Proof.
  cbv zeta.
  set (st := setClient
               (Some (recordHeaders (Demo.setCookieHeaders (HArr ["SID=hdr"]))
                        Demo.freshClient))
               Demo.connectedA).
  set (body := RawText ("Set-Cookie: SID=body" +:+ CR +:+ LF)).
  set (response := RawResponse (Demo.setCookieHeaders (HStr "SID=raw; Path=/"))).
  set (lines := RawText (headerLines ["A=1; Path=/"; "SID=xyz"])).
  pose proof (proj2 (proj2 (extraction_first_strategy_wins
                              {| result := "ok"; raw := body |} st))
                Demo.domainA eq_refl) as (H1 & _ & _).
  pose proof (proj2 (proj2 (extraction_first_strategy_wins
                              {| result := "ok"; raw := response |} Demo.connectedA))
                Demo.domainA eq_refl) as (_ & _ & H2).
  pose proof (proj2 (proj2 (extraction_first_strategy_wins
                              {| result := "ok"; raw := body |} Demo.connectedA))
                Demo.domainA eq_refl) as (_ & _ & H3).
  pose proof (proj2 (proj2 (extraction_first_strategy_wins
                              {| result := "ok"; raw := lines |} Demo.connectedA))
                Demo.domainA eq_refl) as (_ & _ & H4).
  split; [|split; [|split; [|split]]].
  - exact (f_equal (fun m => default [] (m !! Demo.domainA))
             (H1 (HArr ["SID=hdr"]) eq_refl)).
  - exact (f_equal (fun m => default [] (m !! Demo.domainA))
             (proj1 (H2 eq_refl) _ (HStr "SID=raw; Path=/") eq_refl eq_refl)).
  - exact (f_equal (fun m => default [] (m !! Demo.domainA))
             (proj1 (proj2 (H3 eq_refl)) _ ["SID=body"] eq_refl eq_refl)).
  - assert (Forall (fun v => headerValue v = true) ["A=1; Path=/"; "SID=xyz"]) as H
      by (repeat constructor).
    exact (f_equal (fun m => default [] (m !! Demo.domainA))
             (proj1 (proj2 (proj2 (H4 eq_refl))) "A=1; Path=/" ["SID=xyz"] eq_refl H)).
  - apply (proj1 (proj2 (extraction_first_strategy_wins
                           {| result := "ok"; raw := body |} st))).
    intros ev v [= <- <-]. reflexivity.
Defined.

End ExtractionPriorityAtWork.

(** * Further properties: the wrapper *)

Section WrapperFacts.

#[local] Arguments applyCookiesForDomain : simpl never.

(** A [connect] that returns [true] leaves a client and a current domain. *)
Lemma connect_true (env : Platform) (url : string) (options : gmap string string)
    (st : SOAPClient) :
  snd (connect env url options st) = true ->
  client (fst (connect env url options st)) <> None
  /\ currentDomain (fst (connect env url options st)) <> None.
Proof.
  unfold connect, connectAttempt, bind, modify, completed, throw, ret. simpl.
  destruct (hostname env (Some url)) as [td|e]; simpl; [|discriminate].
  destruct (sessionCookies st !! td) as [[|x l]|]; simpl;
    (destruct (createClientAsync env url _) as [err|c [loc|e]]; simpl;
     [discriminate| |discriminate];
     destruct (hostname env loc) as [sd|e]; simpl; [|discriminate];
     unfold domainInUse; simpl;
     destruct (currentDomain st) as [old|]; simpl;
     [destruct (truthy old); simpl; [destruct (String.eqb old sd); simpl|]|];
     intros _;
     match goal with
     | |- client (applyCookiesForDomain ?d ?s) <> None /\ _ =>
         destruct (apply_frame d s) as (_ & -> & _);
         rewrite (apply_client_presence d s); simpl; split; discriminate
     end).
Qed.

Lemma retryLoop_outcome (platforms : nat -> Platform) (url : string)
    (options : gmap string string) (maxRetries i remaining : nat) (st : SOAPClient) :
  let r := Wrapper.retryLoop platforms url options maxRetries i remaining None st in
  sessionCookies (fst r) = sessionCookies st
  /\ (Wrapper.success (snd r) = false ->
        Wrapper.error (snd r) = Some (Wrapper.FailedAfter maxRetries None))
  /\ (Wrapper.success (snd r) = true ->
        Wrapper.error (snd r) = None /\ client (fst r) <> None
        /\ currentDomain (fst r) <> None).
Proof.
  cbv zeta. revert i st. induction remaining as [|n IH]; intros i st; simpl.
  - split; [reflexivity|]. split; [reflexivity|discriminate].
  - unfold Wrapper.connect.
    pose proof (connect_store (platforms i) url options st) as Hs.
    pose proof (connect_true (platforms i) url options st) as Ht.
    destruct (connect (platforms i) url options st) as [st' ok]. simpl in *.
    destruct ok; simpl.
    + split; [exact Hs|]. split; [discriminate|]. intros _. split; [reflexivity|auto].
    + destruct (IH (S i) st') as (H1 & H2 & H3). rewrite Hs in H1. auto.
Qed.

(** X17. [connectWithRetry] never writes to the cookie store. When it
    gives up, its error text is "Failed after N attempts. Last error:
    undefined" whatever made the attempts fail, since a failed attempt
    returns no error; when it succeeds the instance has a client and a
    current domain. With no attempts allowed it does not connect at all,
    and a first attempt that succeeds is the whole of it. *)
Theorem connectWithRetry_outcome (platforms : nat -> Platform) (url : string)
    (options : gmap string string) (maxRetries : nat) (st : SOAPClient) :
  let r := Wrapper.connectWithRetry platforms url options maxRetries st in
  sessionCookies (fst r) = sessionCookies st
  /\ (Wrapper.success (snd r) = false ->
        Wrapper.error (snd r) = Some (Wrapper.FailedAfter maxRetries None))
  /\ (Wrapper.success (snd r) = true ->
        Wrapper.error (snd r) = None /\ client (fst r) <> None
        /\ currentDomain (fst r) <> None)
  /\ (maxRetries = 0 -> fst r = st /\ Wrapper.success (snd r) = false)
  /\ (maxRetries <> 0 -> snd (connect (platforms 0) url options st) = true ->
        r = Wrapper.connect (platforms 0) url options st).
Proof.
  cbv zeta. unfold Wrapper.connectWithRetry.
  destruct (retryLoop_outcome platforms url options maxRetries 0 maxRetries st)
    as (H1 & H2 & H3).
  split; [exact H1|]. split; [exact H2|]. split; [exact H3|]. split.
  - intros ->. simpl. auto.
  - intros Hn Hok. destruct maxRetries as [|n]; [contradiction|]. simpl.
    unfold Wrapper.connect.
    destruct (connect (platforms 0) url options st) as [st' ok]. simpl in *.
    subst ok. reflexivity.
Qed.

Lemma connectWithRetry_outcome_witness :
  Wrapper.error (snd (Wrapper.connectWithRetry (fun _ => Demo.offline) Demo.otherWsdl ∅ 3
                        Demo.loggedInA))
  = Some (Wrapper.FailedAfter 3 None)
  /\ Wrapper.connectWithRetry (fun _ => Demo.platform) Demo.otherWsdl ∅ 3 Demo.loggedInA
     = Wrapper.connect Demo.platform Demo.otherWsdl ∅ Demo.loggedInA.
Proof.
  split.
  - exact (proj1 (proj2 (connectWithRetry_outcome (fun _ => Demo.offline) Demo.otherWsdl ∅ 3
                           Demo.loggedInA)) eq_refl).
  - refine (proj2 (proj2 (proj2 (proj2
              (connectWithRetry_outcome (fun _ => Demo.platform) Demo.otherWsdl ∅ 3
                 Demo.loggedInA)))) _ eq_refl).
    discriminate.
Defined.

(** The wrapper's [executeMethod] turns every outcome into a result
    object: without a client the result is a failure with the text "Not
    connected to any service" and the instance is untouched; a failed
    call is a failure with the error's message; a successful call is a
    success carrying the payload of the call. *)
Theorem wrapper_executeMethod_reports {A : Type} (methodName : string)
    (reply : RpcReply A) (st : SOAPClient) :
  (client st = None ->
     Wrapper.executeMethod methodName reply st
     = (st, {| Wrapper.success := false;
               Wrapper.error := Some (Wrapper.Message "Not connected to any service");
               Wrapper.payload := None |}))
  /\ (forall c err recorded, client st = Some c -> reply = RpcFailed err recorded ->
        snd (Wrapper.executeMethod methodName reply st)
        = {| Wrapper.success := false;
             Wrapper.error := Some (Wrapper.Message (message err));
             Wrapper.payload := None |}
        /\ sessionCookies (fst (Wrapper.executeMethod methodName reply st))
           = sessionCookies st)
  /\ (forall c res recorded, client st = Some c -> reply = RpcDone res recorded ->
        snd (Wrapper.executeMethod methodName reply st)
        = {| Wrapper.success := true; Wrapper.error := None;
             Wrapper.payload := Some (result res) |}).
Proof.
  unfold Wrapper.executeMethod. split; [|split].
  - intros H. unfold executeMethod. rewrite H. reflexivity.
  - intros c err recorded H ->. unfold executeMethod. rewrite H. auto.
  - intros c res recorded H ->. rewrite (executeMethod_done _ _ _ _ _ H). reflexivity.
Qed.

Lemma wrapper_executeMethod_reports_witness :
  Wrapper.success (snd (Wrapper.executeMethod "GetData" Demo.plainReply newSOAPClient)) = false
  /\ Wrapper.payload (snd (Wrapper.executeMethod "GetData" Demo.plainReply Demo.loggedInA))
     = Some "data".
Proof.
  split.
  - rewrite (proj1 (wrapper_executeMethod_reports "GetData" Demo.plainReply newSOAPClient)
               eq_refl). reflexivity.
  - exact (f_equal Wrapper.payload
             (proj2 (proj2 (wrapper_executeMethod_reports "GetData" Demo.plainReply
                              Demo.loggedInA))
                {| httpHeaders := {[ "Cookie" := "SID=abc123" ]};
                   lastResponseHeaders :=
                     Demo.setCookieHeaders (HArr ["SID=abc123; Path=/"]) |}
                {| result := "data"; raw := RawUndefined |} None eq_refl eq_refl)).
Defined.

(** X18. [disconnect] forgets the client, [authCookie] and the two URLs
    but keeps the cookie store and the current domain: afterwards every
    call throws "Not connected to any service" while [getSessionCookies]
    answers as before, and a later [connect] that succeeds towards a host
    with stored cookies has them on the new client before any call. *)
Theorem disconnect_keeps_cookies {A : Type} (st : SOAPClient) (methodName : string)
    (reply : RpcReply A) :
  let st' := Wrapper.disconnect st in
  sessionCookies st' = sessionCookies st
  /\ currentDomain st' = currentDomain st
  /\ getSessionCookies st' = getSessionCookies st
  /\ executeMethod methodName reply st' = (st', Throw notConnected)
  /\ Wrapper.connected (Wrapper.getConnectionStatus st') = false
  /\ Wrapper.authenticated (Wrapper.getConnectionStatus st') = false
  /\ (forall env url options td c loc sd x l,
        hostname env (Some url) = Return td ->
        createClientAsync env url (wsdlHeadersFor td options st)
          = CreateResolved c (Return (Some loc)) ->
        hostname env (Some loc) = Return sd ->
        truthy sd = true ->
        sessionCookies st !! sd = Some (x :: l) ->
        cookieHeader (fst (connect env url options st')) = Some (join "; " (x :: l))).
Proof.
  cbv zeta. repeat split.
  intros env url options td c loc sd x l Hh Hc Hs Ht Hx.
  destruct (connect_resolved_fields env url options (Wrapper.disconnect st) td c
              (Some loc) sd Hh Hc Hs) as (_ & _ & _ & _ & ->).
  rewrite Ht. change (sessionCookies (Wrapper.disconnect st)) with (sessionCookies st).
  rewrite Hx. reflexivity.
Qed.

Lemma disconnect_keeps_cookies_witness :
  getSessionCookies (Wrapper.disconnect Demo.loggedInA) = Some "SID=abc123"
  /\ cookieHeader (Wrapper.disconnect Demo.loggedInA) = None
  /\ cookieHeader (fst (connect Demo.platform "http://a.example.com/Data.svc?wsdl" ∅
                          (Wrapper.disconnect Demo.loggedInA)))
     = Some "SID=abc123".
Proof.
  destruct (disconnect_keeps_cookies (A := string) Demo.loggedInA "GetData" Demo.plainReply)
    as (_ & _ & Hg & _ & _ & _ & Hc).
  split; [exact Hg|]. split; [reflexivity|].
  exact (Hc Demo.platform "http://a.example.com/Data.svc?wsdl" ∅ "a.example.com"
           Demo.freshClient "http://a.example.com/Data.svc?wsdl" "a.example.com"
           "SID=abc123" [] eq_refl eq_refl eq_refl eq_refl eq_refl).
Defined.

End WrapperFacts.

(** * Further properties: the WSDL parser *)

Section WsdlFacts.

Import Wsdl.

Lemma packed_objects {A} (g : A -> JsVal) (l : list A) :
  (forall x, exists fields, g x = JObj fields) ->
  truthyV (packed (map g l)) = match l with [] => false | _ => true end
  /\ asArray (packed (map g l)) = match l with [] => [JUndefined] | _ => map g l end.
Proof.
  intros Hg. destruct l as [|x [|y l]]; simpl; auto.
  destruct (Hg x) as [fields ->]. auto.
Qed.

Lemma forEach_rows {A B} (f : JsVal -> Completion (list B)) (g : A -> JsVal)
    (h : A -> list B) (l : list A) :
  (forall x, f (g x) = Return (h x)) ->
  forEach f (map g l) = Return (concat (map h l)).
Proof.
  intros H. induction l as [|x l IH]; [reflexivity|].
  simpl. rewrite H, IH. reflexivity.
Qed.

Lemma concat_singletons {A B} (h : A -> B) (l : list A) :
  concat (map (fun x => [h x]) l) = map h l.
Proof. induction l as [|x l IH]; simpl; [reflexivity|]. rewrite IH. reflexivity. Qed.

Lemma definitions_found (d : Document) :
  getEither "definitions" "wsdl:definitions" (encode d)
  = Return (element [("targetNamespace", docNamespace d)]
              (children (tag (prefixed d) "service")
                 (map (encodeService (prefixed d)) (docServices d))
               ++ children (tag (prefixed d) "binding")
                    (map (encodeBinding (prefixed d)) (docBindings d)))%list).
Proof. unfold encode. destruct (prefixed d); reflexivity. Qed.

Lemma definitions_services (pre : bool) (ns : string) (S : list ServiceDoc)
    (B : list BindingDoc) :
  getEither "service" "wsdl:service"
    (element [("targetNamespace", ns)]
       (children (tag pre "service") (map (encodeService pre) S)
        ++ children (tag pre "binding") (map (encodeBinding pre) B))%list)
  = Return (packed (map (encodeService pre) S)).
Proof.
  destruct pre; destruct S as [|s [|s' S]]; destruct B as [|b [|b' B]]; reflexivity.
Qed.

Lemma definitions_bindings (pre : bool) (ns : string) (S : list ServiceDoc)
    (B : list BindingDoc) :
  getEither "binding" "wsdl:binding"
    (element [("targetNamespace", ns)]
       (children (tag pre "service") (map (encodeService pre) S)
        ++ children (tag pre "binding") (map (encodeBinding pre) B))%list)
  = Return (packed (map (encodeBinding pre) B)).
Proof.
  destruct pre; destruct S as [|s [|s' S]]; destruct B as [|b [|b' B]]; reflexivity.
Qed.

Lemma definitions_types (pre : bool) (ns : string) (S : list ServiceDoc)
    (B : list BindingDoc) :
  getEither "types" "wsdl:types"
    (element [("targetNamespace", ns)]
       (children (tag pre "service") (map (encodeService pre) S)
        ++ children (tag pre "binding") (map (encodeBinding pre) B))%list)
  = Return JUndefined.
Proof.
  destruct pre; destruct S as [|s [|s' S]]; destruct B as [|b [|b' B]]; reflexivity.
Qed.

Lemma portEntry_row (pre : bool) (s : ServiceDoc) (p : PortDoc) :
  portEntry (encodeService pre s) (encodePort p)
  = Return [{| seName := JStr (sName s); sePort := JStr (pName p);
               seBinding := JStr (pBinding p);
               seLocation := extensionValue "Unknown" (pAddress p) |}].
Proof. destruct p as [n b [[v|v]|]]; reflexivity. Qed.

Lemma serviceEntries_rows (pre : bool) (s : ServiceDoc) :
  serviceEntries (encodeService pre s)
  = match sPorts s with
    | [] => Throw (cannotRead "undefined" "$")
    | _ =>
        Return (map (fun p => {| seName := JStr (sName s); sePort := JStr (pName p);
                                 seBinding := JStr (pBinding p);
                                 seLocation := extensionValue "Unknown" (pAddress p) |})
                    (sPorts s))
    end.
Proof.
  unfold serviceEntries.
  assert (getEither "port" "wsdl:port" (encodeService pre s)
          = Return (packed (map encodePort (sPorts s)))) as ->.
  { unfold encodeService. destruct pre; destruct (sPorts s) as [|p [|p' l]]; reflexivity. }
  cbn [andThen].
  destruct (packed_objects encodePort (sPorts s)) as [_ ->]; [eexists; reflexivity|].
  destruct (sPorts s) as [|p l] eqn:E; [reflexivity|]. rewrite <- E.
  rewrite (forEach_rows _ _ _ _ (portEntry_row pre s)), concat_singletons. reflexivity.
Qed.

Lemma forEach_services (pre : bool) (S : list ServiceDoc) :
  forEach serviceEntries (map (encodeService pre) S)
  = if forallb (fun s => match sPorts s with [] => false | _ => true end) S
    then Return (concat (map (fun s =>
           map (fun p => {| seName := JStr (sName s); sePort := JStr (pName p);
                            seBinding := JStr (pBinding p);
                            seLocation := extensionValue "Unknown" (pAddress p) |})
               (sPorts s)) S))
    else Throw (cannotRead "undefined" "$").
Proof.
  induction S as [|s S IH]; [reflexivity|].
  cbn [map forEach forallb concat]. rewrite serviceEntries_rows, IH.
  destruct (sPorts s) as [|p l]; [reflexivity|]. cbn [andThen andb].
  destruct (forallb _ S); reflexivity.
Qed.

Lemma operationEntry_row (pre : bool) (b : BindingDoc) (o : OperationDoc) :
  operationEntry (encodeBinding pre b) (encodeOperation o)
  = Return [{| opName := JStr (oName o); opBinding := JStr (bName b);
               opSoapAction := extensionValue "" (oOperation o) |}].
Proof. destruct o as [n [[v|v]|]]; reflexivity. Qed.

Lemma bindingEntries_rows (pre : bool) (b : BindingDoc) :
  bindingEntries (encodeBinding pre b)
  = Return (map (fun o => {| opName := JStr (oName o); opBinding := JStr (bName b);
                             opSoapAction := extensionValue "" (oOperation o) |})
                (bOperations b)).
Proof.
  unfold bindingEntries.
  assert (getEither "operation" "wsdl:operation" (encodeBinding pre b)
          = Return (packed (map encodeOperation (bOperations b)))) as ->.
  { unfold encodeBinding. destruct pre; destruct (bOperations b) as [|o [|o' l]]; reflexivity. }
  cbn [andThen].
  destruct (packed_objects encodeOperation (bOperations b)) as [-> ->];
    [eexists; reflexivity|].
  destruct (bOperations b) as [|o l] eqn:E; [reflexivity|]. rewrite <- E.
  rewrite (forEach_rows _ _ _ _ (operationEntry_row pre b)), concat_singletons.
  reflexivity.
Qed.

(** X19. For a WSDL document with or without the [wsdl:] prefix,
    [extractServiceInfo] applied to the object [xml2js] builds of it
    returns the target namespace, one service entry per port of every
    service (with the SOAP 1.1 or 1.2 address as location, "Unknown"
    without one) and one operation entry per operation of every binding
    (with the action of its SOAP extension, the empty text without one),
    all in document order, whether an element has one child or several. A
    binding without operations contributes nothing, but a service without
    a port makes the extraction throw a [TypeError]. *)
Theorem extractServiceInfo_of_document (d : Document) :
  extractServiceInfo (encode d)
  = if everyServiceHasPort d then
      Return {| targetNamespace := JStr (docNamespace d);
                services := serviceRows d;
                operations := operationRows d;
                types := [] |}
    else Throw (cannotRead "undefined" "$").
Proof.
  unfold extractServiceInfo. rewrite definitions_found. cbn [andThen].
  change (truthyV (element _ _)) with true. cbn [negb].
  change (attribute "targetNamespace" (element [("targetNamespace", docNamespace d)] ?k))
    with (Return (JStr (docNamespace d))).
  cbn [andThen].
  rewrite definitions_services, definitions_bindings, definitions_types. cbn [andThen].
  destruct (packed_objects (encodeService (prefixed d)) (docServices d)) as [-> ->];
    [eexists; reflexivity|].
  destruct (packed_objects (encodeBinding (prefixed d)) (docBindings d)) as [-> ->];
    [eexists; reflexivity|].
  unfold everyServiceHasPort, serviceRows, operationRows.
  replace (if match docServices d with [] => false | _ => true end
           then forEach serviceEntries
                  match docServices d with
                  | [] => [JUndefined]
                  | _ => map (encodeService (prefixed d)) (docServices d)
                  end
           else Return [])
    with (forEach serviceEntries (map (encodeService (prefixed d)) (docServices d)))
    by (destruct (docServices d); reflexivity).
  replace (if match docBindings d with [] => false | _ => true end
           then forEach bindingEntries
                  match docBindings d with
                  | [] => [JUndefined]
                  | _ => map (encodeBinding (prefixed d)) (docBindings d)
                  end
           else Return [])
    with (forEach bindingEntries (map (encodeBinding (prefixed d)) (docBindings d)))
    by (destruct (docBindings d); reflexivity).
  rewrite forEach_services.
  destruct (forallb _ (docServices d)); [|reflexivity]. cbn [andThen].
  rewrite (forEach_rows _ _ _ _ (bindingEntries_rows (prefixed d))). reflexivity.
Qed.

Lemma extractServiceInfo_of_document_rows :
  extractServiceInfo
    (encode {| prefixed := true; docNamespace := "urn:demo";
               docServices := [{| sName := "Login";
                                  sPorts := [{| pName := "LoginSoap"; pBinding := "tns:LoginSoap";
                                                pAddress := Some (Soap11 "http://a.example.com/Login.svc") |};
                                             {| pName := "LoginHttp"; pBinding := "tns:LoginHttp";
                                                pAddress := None |}] |}];
               docBindings := [{| bName := "LoginSoap";
                                  bOperations := [{| oName := "Authenticate";
                                                     oOperation := Some (Soap12 "urn:demo/Authenticate") |}] |};
                               {| bName := "LoginHttp"; bOperations := [] |}] |})
  = Return {| targetNamespace := JStr "urn:demo";
              services := [{| seName := JStr "Login"; sePort := JStr "LoginSoap";
                              seBinding := JStr "tns:LoginSoap";
                              seLocation := JStr "http://a.example.com/Login.svc" |};
                           {| seName := JStr "Login"; sePort := JStr "LoginHttp";
                              seBinding := JStr "tns:LoginHttp";
                              seLocation := JStr "Unknown" |}];
              operations := [{| opName := JStr "Authenticate"; opBinding := JStr "LoginSoap";
                                opSoapAction := JStr "urn:demo/Authenticate" |}];
              types := [] |}.
Proof. rewrite extractServiceInfo_of_document. reflexivity. Defined.

Create HintDb type_errors.

Lemma only_return {A} (a : A) : onlyTypeErrors (Return a).
Proof. intros e H. discriminate. Qed.

Lemma only_get (k : string) (v : JsVal) : onlyTypeErrors (get k v).
Proof.
  intros e. destruct v; simpl; try discriminate; intros [= <-]; eexists _, _; reflexivity.
Qed.

Lemma only_andThen {A B} (c : Completion A) (k : A -> Completion B) :
  onlyTypeErrors c -> (forall a, onlyTypeErrors (k a)) -> onlyTypeErrors (andThen c k).
Proof.
  intros Hc Hk e. destruct c as [a|e']; simpl; [apply Hk|].
  intros [= <-]. apply Hc. reflexivity.
Qed.

Lemma only_if {A} (b : bool) (c1 c2 : Completion A) :
  onlyTypeErrors c1 -> onlyTypeErrors c2 -> onlyTypeErrors (if b then c1 else c2).
Proof. destruct b; auto. Qed.

Lemma only_forEach {A B} (f : A -> Completion (list B)) (l : list A) :
  (forall x, onlyTypeErrors (f x)) -> onlyTypeErrors (forEach f l).
Proof.
  intros Hf. induction l as [|x l IH]; simpl; [apply only_return|].
  apply only_andThen; [apply Hf|]. intros entries.
  apply only_andThen; [exact IH|]. intros more. apply only_return.
Qed.

#[local] Hint Resolve only_return only_get only_andThen only_if only_forEach : type_errors.

Lemma only_attribute (k : string) (v : JsVal) : onlyTypeErrors (attribute k v).
Proof. unfold attribute. auto with type_errors. Qed.

Lemma only_getEither (k1 k2 : string) (v : JsVal) : onlyTypeErrors (getEither k1 k2 v).
Proof. unfold getEither. auto with type_errors. Qed.

#[local] Hint Resolve only_attribute only_getEither : type_errors.

Lemma only_attributeOfEither (k1 k2 attr : string) (fallback el : JsVal) :
  onlyTypeErrors (attributeOfEither k1 k2 attr fallback el).
Proof. unfold attributeOfEither. auto 10 with type_errors. Qed.

#[local] Hint Resolve only_attributeOfEither : type_errors.

Lemma only_serviceEntries (service : JsVal) : onlyTypeErrors (serviceEntries service).
Proof. unfold serviceEntries, portEntry. auto 12 with type_errors. Qed.

Lemma only_bindingEntries (binding : JsVal) : onlyTypeErrors (bindingEntries binding).
Proof. unfold bindingEntries, operationEntry. auto 12 with type_errors. Qed.

Lemma only_schemaEntries (schema : JsVal) : onlyTypeErrors (schemaEntries schema).
Proof. unfold schemaEntries, elementEntry. auto 12 with type_errors. Qed.

#[local] Hint Resolve only_serviceEntries only_bindingEntries only_schemaEntries : type_errors.

(** X20. On a parsed document that is an object, [extractServiceInfo]
    throws "Invalid WSDL: No definitions found" exactly when neither its
    [definitions] nor its [wsdl:definitions] property is truthy (missing,
    or an empty element); every other error it can throw is the
    [TypeError] of reading a property off [undefined] or [null]. *)
Theorem extractServiceInfo_invalid (fields : list (string * JsVal)) :
  (extractServiceInfo (JObj fields) = Throw invalidWsdl
   <-> truthyV (field "definitions" fields) = false
       /\ truthyV (field "wsdl:definitions" fields) = false)
  /\ (forall e, extractServiceInfo (JObj fields) = Throw e ->
        e = invalidWsdl \/ exists what k, e = cannotRead what k).
Proof.
  assert (forall definitions,
    onlyTypeErrors
      (letc namespace := attribute "targetNamespace" definitions in
       letc services := getEither "service" "wsdl:service" definitions in
       letc serviceList :=
         (if truthyV services then forEach serviceEntries (asArray services)
          else Return []) in
       letc bindings := getEither "binding" "wsdl:binding" definitions in
       letc operationList :=
         (if truthyV bindings then forEach bindingEntries (asArray bindings)
          else Return []) in
       letc types := getEither "types" "wsdl:types" definitions in
       letc typeList :=
         (if truthyV types then
            letc schemas := get "xsd:schema" types in
            if truthyV schemas then forEach schemaEntries (asArray schemas) else Return []
          else Return []) in
       Return {| targetNamespace := namespace; services := serviceList;
                 operations := operationList; types := typeList |})) as Hrest.
  { intros definitions. auto 20 with type_errors. }
  assert (forall e, (exists what k, e = cannotRead what k) -> e <> invalidWsdl) as Hne.
  { intros e (what & k & ->). discriminate. }
  unfold extractServiceInfo, getEither. cbn [get andThen].
  destruct (truthyV (field "definitions" fields)) eqn:E1; cbn [andThen negb].
  - rewrite E1. cbn [negb]. split.
    + split; [|intros [H _]; discriminate].
      intros H. exfalso. exact (Hne _ (Hrest _ _ H) eq_refl).
    + intros e H. right. exact (Hrest _ _ H).
  - destruct (truthyV (field "wsdl:definitions" fields)) eqn:E2; cbn [negb].
    + split.
      * split; [|intros [_ H]; discriminate].
        intros H. exfalso. exact (Hne _ (Hrest _ _ H) eq_refl).
      * intros e H. right. exact (Hrest _ _ H).
    + split; [split; auto|]. intros e [= <-]. left. reflexivity.
Qed.

Lemma extractServiceInfo_invalid_witness :
  extractServiceInfo (JObj [("definitions", JStr ""); ("html", JStr "Not Found")])
  = Throw invalidWsdl.
Proof.
  apply (proj1 (extractServiceInfo_invalid
                  [("definitions", JStr ""); ("html", JStr "Not Found")])).
  split; reflexivity.
Defined.

End WsdlFacts.
